(** * Deterministic SKU mapping engine

    A shallow embedding of [DeterministicMappingService]
    (src/services/PDFGenerationService.ts): the normalizer, the
    hard-constraint filter, the candidate scorer and the decision engine,
    followed by the properties of the design document that concern them.
    The code around the service is embedded as well: the loading of the
    alias file ([ConfigService]), and what the mapping and quote endpoints
    and [createQuote] do with a mapping result.

    Conventions of the embedding.
    - A JavaScript [number] is an exact rational ([Q]).  NaN, the infinities
      and binary64 rounding are outside the model; every comparison the
      engine makes is kept as a boolean test on [Q].
    - A JavaScript [string] is a [string] of 8-bit characters; case mapping
      and the whitespace class are those of ASCII.
    - An optional field ([x?: T]) is an [option]; JavaScript truthiness is
      written out ([truthy_num], [truthy_str]): [undefined], [0] and the
      empty string are falsy.
    - The alias table, a [Map<string, AliasEntry[]>], is a [gmap]. *)

From Stdlib Require Import QArith Qabs Qminmax Lqa Lia List String Ascii NArith.
From Stdlib Require Import Sorting.Sorted Sorting.Permutation.
From stdpp Require Import base gmap strings.
Import ListNotations.
Open Scope string_scope.

(** ** JavaScript string primitives *)

Module Js.

Definition in_range (lo hi : N) (c : ascii) : bool :=
  let n := N_of_ascii c in (N.leb lo n && N.leb n hi)%bool.

Definition is_upper : ascii -> bool := in_range 65 90.
Definition is_lower : ascii -> bool := in_range 97 122.
Definition is_digit : ascii -> bool := in_range 48 57.

(** The ASCII part of the [\s] class (also what [trim] removes):
    TAB, LF, VT, FF, CR and SPACE. *)
Definition is_space (c : ascii) : bool :=
  (in_range 9 13 c || N.eqb (N_of_ascii c) 32)%bool.

Definition lower_char (c : ascii) : ascii :=
  if is_upper c then ascii_of_N (N_of_ascii c + 32) else c.

Definition upper_char (c : ascii) : ascii :=
  if is_lower c then ascii_of_N (N_of_ascii c - 32) else c.

Fixpoint map_chars (f : ascii -> ascii) (s : string) : string :=
  match s with
  | EmptyString => EmptyString
  | String c s' => String (f c) (map_chars f s')
  end.

Definition toLowerCase : string -> string := map_chars lower_char.
Definition toUpperCase : string -> string := map_chars upper_char.

Fixpoint trimStart (s : string) : string :=
  match s with
  | EmptyString => EmptyString
  | String c s' => if is_space c then trimStart s' else s
  end.

Fixpoint trimEnd (s : string) : string :=
  match s with
  | EmptyString => EmptyString
  | String c s' =>
      let r := trimEnd s' in
      if (is_space c && String.eqb r EmptyString)%bool
      then EmptyString else String c r
  end.

Definition trim (s : string) : string := trimEnd (trimStart s).

(** [s.includes(sub)] *)
Fixpoint includes (s sub : string) : bool :=
  if String.prefix sub s then true
  else match s with
       | EmptyString => false
       | String _ s' => includes s' sub
       end.

(** [s.split(/\s+/)]: the pieces between maximal runs of whitespace; a
    leading or trailing run leaves an empty piece, and the empty string
    splits into one empty piece. *)
Fixpoint split_ws_from (cur : string) (in_sep : bool) (s : string)
  : list string :=
  match s with
  | EmptyString => [cur]
  | String c s' =>
      if is_space c
      then if in_sep then split_ws_from EmptyString true s'
           else cur :: split_ws_from EmptyString true s'
      else split_ws_from (cur ++ String c EmptyString) false s'
  end.

Definition split_ws (s : string) : list string :=
  split_ws_from EmptyString false s.

(** [s.replace(/[^a-z0-9]/g, '')] *)
Fixpoint keep_alnum (s : string) : string :=
  match s with
  | EmptyString => EmptyString
  | String c s' =>
      if (is_lower c || is_digit c)%bool
      then String c (keep_alnum s') else keep_alnum s'
  end.

(** [arr.includes(x)] on an array of strings *)
Definition arr_includes (l : list string) (x : string) : bool :=
  existsb (String.eqb x) l.

(** Truthiness of an optional string and of an optional number. *)
Definition truthy_string (s : string) : bool :=
  negb (String.eqb s EmptyString).

Definition truthy_str (o : option string) : bool :=
  match o with Some s => truthy_string s | None => false end.

Definition truthy_q (q : Q) : bool := negb (Qeq_bool q 0).

Definition truthy_num (o : option Q) : bool :=
  match o with Some q => truthy_q q | None => false end.

(** [a < b], [a > b], [a <= b], [a >= b] on numbers *)
Definition ltb (a b : Q) : bool := negb (Qle_bool b a).
Definition gtb (a b : Q) : bool := ltb b a.
Definition leb (a b : Q) : bool := Qle_bool a b.
Definition geb (a b : Q) : bool := Qle_bool b a.

End Js.

(** ** Edit distance

    [fast-levenshtein]'s [get(a, b)] is the Levenshtein distance
    (insertions, deletions and substitutions of one character, each of cost
    one), computed row by row: [row(i)[j]] is the distance between the first
    [i] characters of [a] and the first [j] characters of [b]. *)

Module levenshtein.

(** The rest of row [i+1] from column [j+1] on, given row [i] from column
    [j] on ([prev]) and the entry of row [i+1] at column [j] ([left]). *)
Fixpoint next_row (x : ascii) (b : list ascii) (prev : list nat) (left : nat)
  : list nat :=
  match b, prev with
  | y :: b', diag :: ((up :: _) as prev') =>
      let v := Nat.min (Nat.min (S up) (S left))
                       (diag + (if Ascii.eqb x y then 0 else 1)) in
      v :: next_row x b' prev' v
  | _, _ => []
  end.

Definition step (b : list ascii) (prev : list nat) (x : ascii) : list nat :=
  match prev with
  | [] => []
  | d :: _ => S d :: next_row x b prev (S d)
  end.

Definition dist (a b : list ascii) : nat :=
  List.last (fold_left (step b) a (List.seq 0 (S (List.length b)))) 0%nat.

Definition get (a b : string) : nat :=
  dist (list_ascii_of_string a) (list_ascii_of_string b).

End levenshtein.

(** ** Data model *)

(** A catalog entry.  Only the fields the mapping engine reads are kept;
    [material] and [description] are mandatory strings in the interface,
    the others are optional. *)
Module SKU.
Record t := mk {
  skuCode : string;
  productFamily : string;
  description : string;
  material : string;
  gauge : option string;
  sizeOdMm : option Q;
  altMaterial : option string;
  toleranceMm : option Q
}.
End SKU.

Module RawTokens.
Record t := mk {
  description : option string;
  size_token : option string;
  material_token : option string;
  color_token : option string;
  gauge_token : option string
}.
End RawTokens.

Module Normalized.
Record t := mk {
  size_mm : option Q;
  material : option string;
  color : option string;
  gauge : option string
}.
(** The object [{}]: what spreading an absent [normalized] yields. *)
Definition empty : t := mk None None None None.
End Normalized.

Module ParsedLineItem.
Record t := mk {
  input_text : string;
  qty : Q;
  uom : string;
  raw_tokens : RawTokens.t;
  normalized : option Normalized.t
}.
(** [line.normalized?.size_mm] and its siblings *)
Definition size_mm (l : t) : option Q :=
  match normalized l with Some n => Normalized.size_mm n | None => None end.
Definition material (l : t) : option string :=
  match normalized l with Some n => Normalized.material n | None => None end.
Definition gauge (l : t) : option string :=
  match normalized l with Some n => Normalized.gauge n | None => None end.
End ParsedLineItem.

Record MappingConfig := {
  auto_map_threshold : Q;
  confidence_delta : Q;
  size_tolerance_mm : Q;
  fuzzy_weight : Q;
  size_weight : Q;
  material_weight : Q;
  alias_weight : Q
}.

Record AliasEntry := { alias : string; boost : Q }.

(** The entries of [reasons] and [assumptions].  The engine renders them as
    sentences; the variant keeps which sentence it is and, for the
    description similarity, the sub-score whose percentage is printed. *)
Inductive Reason :=
| DescriptionSimilarity (fuzzy : Q)
| SizeWithinTolerance
| PartialSizeMatch
| ExactMaterialMatch
| MaterialSimilarity
| AliasMatchDetected
| Sentence (text : string).

Record Breakdown := {
  fuzzy_score : Q;
  size_score : Q;
  material_score : Q;
  alias_score : Q
}.

Record SKUCandidate := {
  sku : SKU.t;
  score : Q;
  reasons : list Reason;
  breakdown : Breakdown
}.

Inductive Status := auto_mapped | needs_review | failed.

Inductive Confidence := high | medium | low.

(** The second argument of [createExplanation]:
    ['high' | 'medium' | 'low' | 'failed']. *)
Inductive ConfidenceArg := graded (c : Confidence) | no_candidates.

Module Explanation.
Record Scores := {
  fuzzy_score : Q;
  size_score : Q;
  material_score : Q;
  alias_score : Q;
  total_score : Q
}.
Record Tolerances := {
  size_tolerance_mm : Q;
  material_match : bool
}.
Record t := mk {
  matched_fields : list string;
  scores : Scores;
  tolerances : Tolerances;
  assumptions : list Reason;
  confidence : Confidence;
  needs_review : bool
}.
End Explanation.

(** One entry of [mapping_result.candidates]; [reason] is the list that
    [reasons.join('; ')] concatenates. *)
Record CandidateSummary := {
  sku_code : string;
  summary_score : Q;
  reason : list Reason
}.

Record MappingResult := {
  status : Status;
  selected_sku : option string;
  candidates : list CandidateSummary;
  explanation : Explanation.t
}.

(** The engine: its configuration and its alias table. *)
Record Engine := {
  config : MappingConfig;
  aliases : gmap string (list AliasEntry)
}.

(** ** 4.1 Normalizer *)

Definition dquote : string := String (ascii_of_N 34) EmptyString.
Definition squote : string := String (ascii_of_N 39) EmptyString.

(** The longest run of decimal digits at the head of [s], and the rest. *)
Fixpoint take_digits (s : string) : string * string :=
  match s with
  | EmptyString => (EmptyString, EmptyString)
  | String c s' =>
      if Js.is_digit c
      then let (ds, rest) := take_digits s' in (String c ds, rest)
      else (EmptyString, s)
  end.

Fixpoint digits_value (acc : N) (ds : string) : N :=
  match ds with
  | EmptyString => acc
  | String c ds' => digits_value (10 * acc + (N_of_ascii c - 48)) ds'
  end.

(** [parseFloat] of a matched numeral [int] or [int.frac]. *)
Definition parseFloat_numeral (int frac : string) : Q :=
  let scale := Z.pow 10 (Z.of_nat (String.length frac)) in
  Qmake (Z.of_N (digits_value 0 int) * scale + Z.of_N (digits_value 0 frac))
        (Z.to_pos scale).

(** The suffix of [s] that starts at its first decimal digit. *)
Fixpoint from_first_digit (s : string) : option string :=
  match s with
  | EmptyString => None
  | String c s' => if Js.is_digit c then Some s else from_first_digit s'
  end.

(** The optional unit group of the size pattern under the [i] flag, already
    lower-cased; its alternatives (mm, inch, in, the double quote, the single
    quote) are tried in this order. *)
Definition match_unit (s : string) : option string :=
  let l := Js.toLowerCase s in
  if String.prefix "mm" l then Some "mm"
  else if String.prefix "inch" l then Some "inch"
  else if String.prefix "in" l then Some "in"
  else if String.prefix dquote l then Some dquote
  else if String.prefix squote l then Some squote
  else None.

(** The leftmost match of the size pattern, a numeral [\d+(?:\.\d+)?],
    whitespace [\s*] and the optional unit: group 1, split at the decimal
    point, and group 2. *)
Definition match_size (sizeToken : string)
  : option (string * string * option string) :=
  match from_first_digit sizeToken with
  | None => None
  | Some s =>
      let (int, r1) := take_digits s in
      let '(frac, r2) :=
        match r1 with
        | String "." r =>
            let (fr, r') := take_digits r in
            if String.eqb fr EmptyString then (EmptyString, r1) else (fr, r')
        | _ => (EmptyString, r1)
        end in
      Some (int, frac, match_unit (Js.trimStart r2))
  end.

Definition extractSizeMm (sizeToken : string) : option Q :=
  match match_size sizeToken with
  | None => None
  | Some (int, frac, unit_group) =>
      let value := parseFloat_numeral int frac in
      let unit := match unit_group with Some u => u | None => "mm" end in
      if (String.eqb unit "inch" || String.eqb unit "in"
          || String.eqb unit dquote || String.eqb unit squote)%bool
      then Some (value * (254 # 10))%Q
      else Some value
  end.

Definition normalizeMaterial (material : string) : string :=
  let lower := Js.trim (Js.toLowerCase material) in
  if (Js.includes lower "frpp" || Js.includes lower "fr-pp"
      || (Js.includes lower "fr" && Js.includes lower "pp"))%bool
  then "FRPP"
  else if Js.includes lower "pvc" then "PVC"
  else if Js.includes lower "nylon" then "NYLON"
  else if Js.includes lower "hdpe" then "HDPE"
  else if Js.includes lower "ldpe" then "LDPE"
  else if (Js.includes lower "ms" || Js.includes lower "gi"
           || Js.includes lower "galvanized")%bool then "MS"
  else if (Js.includes lower "pp" || Js.includes lower "polypropylene")%bool
  then "PP"
  else if (Js.includes lower "fr" && negb (Js.includes lower "pp"))%bool
  then "FR"
  else Js.toUpperCase material.

Definition normalizeGauge (gauge : string) : string :=
  let lower := Js.trim (Js.toLowerCase gauge) in
  if Js.arr_includes ["light"; "l"] lower then "L"
  else if Js.arr_includes ["medium"; "med"; "m"] lower then "M"
  else if Js.arr_includes ["heavy"; "h"] lower then "H"
  else Js.toUpperCase gauge.

Definition normalizeColor (color : string) : string := Js.toLowerCase color.

Definition getProductFamily (description : string) : string :=
  let desc := Js.toLowerCase description in
  let has := Js.includes desc in
  if (has "corrugated" || has "flexible" || has "cfp")%bool
  then "Corrugated Flexible Pipe"
  else if (has "pvc" && has "conduit")%bool then "Rigid PVC Conduit"
  else if (has "fan" && has "box")%bool then "GI Fan Box"
  else if (has "modular" || has "switch" || has "msb")%bool then "MS Box"
  else if (has "cable" && has "gland")%bool then "Cable Gland"
  else if (has "cable" && (has "tie" || has "ties"))%bool then "Cable Tie"
  else if (has "junction" && has "box")%bool then "GI Junction Box"
  else if (has "clamp" || has "saddle")%bool then "Accessories"
  else "Unknown".

(** [{ ...normalized.normalized, field: value }] for each of the four
    fields. *)
Definition spread (o : option Normalized.t) : Normalized.t :=
  match o with Some n => n | None => Normalized.empty end.

Definition with_size_mm (o : option Normalized.t) (v : option Q)
  : option Normalized.t :=
  let n := spread o in
  Some (Normalized.mk v (Normalized.material n) (Normalized.color n)
          (Normalized.gauge n)).

Definition with_material (o : option Normalized.t) (v : string)
  : option Normalized.t :=
  let n := spread o in
  Some (Normalized.mk (Normalized.size_mm n) (Some v) (Normalized.color n)
          (Normalized.gauge n)).

Definition with_color (o : option Normalized.t) (v : string)
  : option Normalized.t :=
  let n := spread o in
  Some (Normalized.mk (Normalized.size_mm n) (Normalized.material n) (Some v)
          (Normalized.gauge n)).

Definition with_gauge (o : option Normalized.t) (v : string)
  : option Normalized.t :=
  let n := spread o in
  Some (Normalized.mk (Normalized.size_mm n) (Normalized.material n)
          (Normalized.color n) (Some v)).

(** [if (token) normalized.normalized = update(token)] *)
Definition when_token (tok : option string)
  (update : option Normalized.t -> string -> option Normalized.t)
  (o : option Normalized.t) : option Normalized.t :=
  match tok with
  | Some t => if Js.truthy_string t then update o t else o
  | None => o
  end.

Definition normalizeLineItem (line : ParsedLineItem.t) : ParsedLineItem.t :=
  let raw := ParsedLineItem.raw_tokens line in
  let n0 := ParsedLineItem.normalized line in
  let n1 := when_token (RawTokens.size_token raw)
              (fun o t => with_size_mm o (extractSizeMm t)) n0 in
  let n2 := when_token (RawTokens.material_token raw)
              (fun o t => with_material o (normalizeMaterial t)) n1 in
  let n3 := when_token (RawTokens.color_token raw)
              (fun o t => with_color o (normalizeColor t)) n2 in
  let n4 := when_token (RawTokens.gauge_token raw)
              (fun o t => with_gauge o (normalizeGauge t)) n3 in
  ParsedLineItem.mk (ParsedLineItem.input_text line) (ParsedLineItem.qty line)
    (ParsedLineItem.uom line) raw n4.

(** ** 4.3 Hard-constraint filter *)

Open Scope Q_scope.

Definition CFP : string := "Corrugated Flexible Pipe".
Definition RPC : string := "Rigid PVC Conduit".

(** [input === skuAltMaterial], the right-hand side possibly [undefined] *)
Definition eq_opt (input : string) (o : option string) : bool :=
  match o with Some a => String.eqb input a | None => false end.

Definition isMaterialCompatible (inputMaterial : string) (sku : SKU.t) : bool :=
  let input := Js.toUpperCase inputMaterial in
  let skuMaterial := Js.toUpperCase (SKU.material sku) in
  let skuAltMaterial := option_map Js.toUpperCase (SKU.altMaterial sku) in
  if (String.eqb input skuMaterial || eq_opt input skuAltMaterial)%bool
  then true
  else if String.eqb (SKU.productFamily sku) CFP then
    if (String.eqb input "FRPP"
        && (String.eqb skuMaterial "PP" || eq_opt "FRPP" skuAltMaterial))%bool
    then true
    else if (String.eqb input "FR"
        && (String.eqb skuMaterial "PP" || eq_opt "FRPP" skuAltMaterial))%bool
    then true
    else if (String.eqb input "PP" && String.eqb skuMaterial "PP")%bool
    then true
    else false
  else false.

(** [a || b] on optional numbers: [a] when truthy, else [b]. *)
Definition num_or (a : option Q) (b : Q) : Q :=
  match a with
  | Some q => if Js.truthy_q q then q else b
  | None => b
  end.

Definition family_ok (sku : SKU.t) (inputFamily : string) : bool :=
  negb (negb (String.eqb inputFamily "Unknown")
        && negb (String.eqb (SKU.productFamily sku) inputFamily)).

Definition size_ok (this : Engine) (line : ParsedLineItem.t) (sku : SKU.t)
  : bool :=
  match ParsedLineItem.size_mm line, SKU.sizeOdMm sku with
  | Some inputSize, Some skuSize =>
      if (Js.truthy_q inputSize && Js.truthy_q skuSize)%bool then
        let tolerance :=
          num_or (SKU.toleranceMm sku) (size_tolerance_mm (config this)) in
        let sizeDiff := Qabs (inputSize - skuSize) in
        negb (Js.gtb sizeDiff tolerance)
      else true
  | _, _ => true
  end.

Definition material_ok (line : ParsedLineItem.t) (sku : SKU.t) : bool :=
  match ParsedLineItem.material line with
  | Some inputMaterial =>
      if (Js.truthy_string inputMaterial
          && Js.truthy_string (SKU.material sku))%bool
      then isMaterialCompatible inputMaterial sku
      else true
  | None => true
  end.

Definition passesHardConstraints (this : Engine) (line : ParsedLineItem.t)
  (sku : SKU.t) (inputFamily : string) : bool :=
  if negb (family_ok sku inputFamily) then false
  else if negb (size_ok this line sku) then false
  else if negb (material_ok line sku) then false
  else true.

(** ** 4.4 Candidate scorer *)

Definition of_nat (n : nat) : Q := inject_Z (Z.of_nat n).

Definition calculateFuzzyScore (input : string) (sku : SKU.t) : Q :=
  let inputLower := Js.toLowerCase input in
  let skuDescription := Js.toLowerCase (SKU.description sku) in
  let distance := levenshtein.get inputLower skuDescription in
  let maxLength :=
    Nat.max (String.length inputLower) (String.length skuDescription) in
  if Nat.ltb 0 maxLength then 1 - of_nat distance / of_nat maxLength else 0.

Definition calculateSizeScore (this : Engine) (line : ParsedLineItem.t)
  (sku : SKU.t) : Q :=
  match ParsedLineItem.size_mm line, SKU.sizeOdMm sku with
  | Some inputSize, Some skuSize =>
      if (negb (Js.truthy_q inputSize) || negb (Js.truthy_q skuSize))%bool
      then 0
      else
        let sizeDiff := Qabs (inputSize - skuSize) in
        let t := size_tolerance_mm (config this) in
        if Js.leb sizeDiff t then 1
        else if Js.leb sizeDiff (t * 2) then 7 # 10
        else if Js.leb sizeDiff (t * 4) then 3 # 10
        else 0
  | _, _ => 0
  end.

Definition calculateMaterialScore (line : ParsedLineItem.t) (sku : SKU.t) : Q :=
  let inputMaterial := ParsedLineItem.material line in
  let skuMaterial := SKU.material sku in
  if (negb (Js.truthy_str inputMaterial)
      && negb (Js.truthy_string skuMaterial))%bool then 5 # 10
  else if (negb (Js.truthy_str inputMaterial)
           || negb (Js.truthy_string skuMaterial))%bool then 2 # 10
  else
    let materialScore : Q :=
      match inputMaterial with
      | Some m =>
          if String.eqb (Js.toLowerCase m) (Js.toLowerCase skuMaterial)
          then 1 else 0
      | None => 0
      end in
    if (String.eqb (SKU.productFamily sku) RPC && Js.gtb materialScore 0)%bool
    then
      match ParsedLineItem.gauge line, SKU.gauge sku with
      | Some inputGauge, Some skuGauge =>
          if (Js.truthy_string inputGauge && Js.truthy_string skuGauge)%bool
          then if String.eqb inputGauge skuGauge then 1 else 7 # 10
          else materialScore
      | _, _ => materialScore
      end
    else materialScore.

(** The number of alias words some input word contains or is contained in. *)
Definition wordMatches (aliasWords inputWords : list string) : nat :=
  List.length
    (List.filter (fun aliasWord =>
               existsb (fun inputWord =>
                          (Js.includes inputWord aliasWord
                           || Js.includes aliasWord inputWord)%bool)
                       inputWords)
            aliasWords).

(** One turn of the loop over the aliases of a SKU. *)
Definition alias_step (inputLower : string) (maxAliasScore : Q)
  (aliasEntry : AliasEntry) : Q :=
  let aliasWords := Js.split_ws (alias aliasEntry) in
  let inputWords := Js.split_ws inputLower in
  let matches := wordMatches aliasWords inputWords in
  let m1 :=
    if Nat.ltb 0 matches then
      let matchRatio := of_nat matches / of_nat (List.length aliasWords) in
      Qmax maxAliasScore (matchRatio * boost aliasEntry)
    else maxAliasScore in
  if (Js.includes inputLower (alias aliasEntry)
      || Js.includes (alias aliasEntry) (Js.keep_alnum inputLower))%bool
  then Qmax m1 (boost aliasEntry * (8 # 10))
  else m1.

Definition calculateAliasScore (this : Engine) (input : string) (sku : SKU.t)
  : Q :=
  let inputLower := Js.toLowerCase input in
  match aliases this !! SKU.skuCode sku with
  | None => 0
  | Some skuAliases =>
      Qmin (fold_left (alias_step inputLower) skuAliases 0) 1
  end.

Definition scoreSKUMatch (this : Engine) (line : ParsedLineItem.t)
  (sku : SKU.t) : SKUCandidate :=
  let fuzzyScore := calculateFuzzyScore (ParsedLineItem.input_text line) sku in
  let r1 := if Js.gtb fuzzyScore (5 # 10)
            then [DescriptionSimilarity fuzzyScore] else [] in
  let sizeScore := calculateSizeScore this line sku in
  let r2 := if Js.gtb sizeScore (8 # 10) then [SizeWithinTolerance]
            else if Js.gtb sizeScore (5 # 10) then [PartialSizeMatch]
            else [] in
  let materialScore := calculateMaterialScore line sku in
  let r3 := if Js.gtb materialScore (9 # 10) then [ExactMaterialMatch]
            else if Js.gtb materialScore (5 # 10) then [MaterialSimilarity]
            else [] in
  let aliasScore :=
    calculateAliasScore this (ParsedLineItem.input_text line) sku in
  let r4 := if Js.gtb aliasScore (5 # 10) then [AliasMatchDetected] else [] in
  let totalScore :=
    fuzzyScore * fuzzy_weight (config this)
    + sizeScore * size_weight (config this)
    + materialScore * material_weight (config this)
    + aliasScore * alias_weight (config this) in
  {| sku := sku;
     score := Qmin totalScore 1;
     reasons := r1 ++ r2 ++ r3 ++ r4;
     breakdown := {| fuzzy_score := fuzzyScore;
                     size_score := sizeScore;
                     material_score := materialScore;
                     alias_score := aliasScore |} |}.

(** ** 4.5 Decision engine *)

(** [Array.prototype.sort(compare)].  The language fixes the result, not the
    algorithm: the sort is stable, [a] comes before [b] when
    [compare(a, b) < 0] and after it when [compare(a, b) > 0].  Insertion
    from the right computes that result: an element moves behind exactly
    those that must precede it. *)
Section Sort.
Context {A : Type} (compare : A -> A -> Q).

Fixpoint insert_by (x : A) (l : list A) : list A :=
  match l with
  | [] => [x]
  | y :: l' => if Js.gtb (compare x y) 0 then y :: insert_by x l' else x :: l
  end.

Definition sort (l : list A) : list A := fold_right insert_by [] l.
End Sort.

(** The comparator of [findCandidates]: [(a, b) => b.score - a.score]. *)
Definition by_score_desc (a b : SKUCandidate) : Q := score b - score a.

(** The body of the loop of [findCandidates]: the candidates pushed, in
    catalog order. *)
Definition pushed (this : Engine) (line : ParsedLineItem.t) (inputFamily : string)
  (skuCatalog : list SKU.t) : list SKUCandidate :=
  flat_map (fun sku =>
              if negb (passesHardConstraints this line sku inputFamily)
              then []
              else
                let candidate := scoreSKUMatch this line sku in
                if Js.gtb (score candidate) (1 # 10) then [candidate] else [])
           skuCatalog.

Definition findCandidates (this : Engine) (line : ParsedLineItem.t)
  (skuCatalog : list SKU.t) : list SKUCandidate :=
  let inputFamily := getProductFamily (ParsedLineItem.input_text line) in
  sort by_score_desc (pushed this line inputFamily skuCatalog).

Definition calculateConfidence (this : Engine) (topScore : Q)
  (secondScore : option Q) : Confidence :=
  if (Js.geb topScore (auto_map_threshold (config this))
      && (negb (Js.truthy_num secondScore)
          || match secondScore with
             | Some s => Js.geb (topScore - s) (confidence_delta (config this))
             | None => false
             end))%bool
  then high
  else if Js.geb topScore (6 # 10) then medium
  else low.

Definition getMatchedFields (candidate : SKUCandidate) : list string :=
  let b := breakdown candidate in
  (if Js.gtb (fuzzy_score b) (5 # 10) then ["description"%string] else [])
  ++ (if Js.gtb (size_score b) (5 # 10) then ["size"%string] else [])
  ++ (if Js.gtb (material_score b) (5 # 10) then ["material"%string] else [])
  ++ (if Js.gtb (alias_score b) (5 # 10) then ["aliases"%string] else []).

Definition createExplanation (this : Engine) (candidates : list SKUCandidate)
  (confidence : ConfidenceArg) (assumptions : list Reason) : Explanation.t :=
  let topCandidate := head candidates in
  Explanation.mk
    (match topCandidate with
     | Some top => getMatchedFields top
     | None => []
     end)
    (match topCandidate with
     | Some top =>
         {| Explanation.fuzzy_score := fuzzy_score (breakdown top);
            Explanation.size_score := size_score (breakdown top);
            Explanation.material_score := material_score (breakdown top);
            Explanation.alias_score := alias_score (breakdown top);
            Explanation.total_score := score top |}
     | None =>
         {| Explanation.fuzzy_score := 0;
            Explanation.size_score := 0;
            Explanation.material_score := 0;
            Explanation.alias_score := 0;
            Explanation.total_score := 0 |}
     end)
    {| Explanation.size_tolerance_mm := size_tolerance_mm (config this);
       Explanation.material_match :=
         match topCandidate with
         | Some top => Js.gtb (material_score (breakdown top)) (9 # 10)
         | None => false
         end |}
    assumptions
    (match confidence with graded c => c | no_candidates => low end)
    (match confidence with no_candidates => true | graded _ => false end
     || match topCandidate with
        | None => true
        | Some top => Js.ltb (score top) (auto_map_threshold (config this))
        end)%bool.

Definition no_candidates_assumptions : list Reason :=
  [ Sentence "No suitable SKU candidates found";
    Sentence "Consider checking product catalog or input format" ].

Definition needsReview (this : Engine) (topCandidate : SKUCandidate)
  (secondCandidate : option SKUCandidate) : bool :=
  (Js.ltb (score topCandidate) (auto_map_threshold (config this))
   || match secondCandidate with
      | Some second =>
          Js.ltb (score topCandidate - score second)
                 (confidence_delta (config this))
      | None => false
      end)%bool.

Definition summarize (c : SKUCandidate) : CandidateSummary :=
  {| sku_code := SKU.skuCode (sku c);
     summary_score := score c;
     reason := reasons c |}.

Definition decideMappingResult (this : Engine) (candidates : list SKUCandidate)
  (_line : ParsedLineItem.t) : MappingResult :=
  match candidates with
  | [] =>
      {| status := failed;
         selected_sku := None;
         candidates := [];
         explanation :=
           createExplanation this candidates no_candidates
             no_candidates_assumptions |}
  | topCandidate :: rest =>
      let secondCandidate := head rest in
      let confidence :=
        calculateConfidence this (score topCandidate)
          (option_map score secondCandidate) in
      let review := needsReview this topCandidate secondCandidate in
      {| status := if review then needs_review else auto_mapped;
         selected_sku :=
           if review then None else Some (SKU.skuCode (sku topCandidate));
         candidates := map summarize (firstn 3 candidates);
         explanation :=
           createExplanation this candidates (graded confidence)
             (reasons topCandidate) |}
  end.

(** One turn of the loop of [mapLineItems]: the normalized line with its
    mapping result. *)
Definition mapLineItem (this : Engine) (skuCatalog : list SKU.t)
  (line : ParsedLineItem.t) : ParsedLineItem.t * MappingResult :=
  let normalizedLine := normalizeLineItem line in
  let found := findCandidates this normalizedLine skuCatalog in
  (normalizedLine, decideMappingResult this found normalizedLine).

Definition mapLineItems (this : Engine) (parsedLines : list ParsedLineItem.t)
  (skuCatalog : list SKU.t) : list (ParsedLineItem.t * MappingResult) :=
  map (mapLineItem this skuCatalog) parsedLines.

(** The defaults of [ConfigService]. *)
Definition default_config : MappingConfig :=
  {| auto_map_threshold := 85 # 100;
     confidence_delta := 12 # 100;
     size_tolerance_mm := 2;
     fuzzy_weight := 6 # 10;
     size_weight := 3 # 10;
     material_weight := 1 # 10;
     alias_weight := 1 # 10 |}.

(** ** Construction of the alias table *)

(** A row of the alias file, as [ConfigService.getSkuAliases] returns it. *)
Module SkuAliasRow.
Record t := mk {
  alias : string;
  sku_code : string;
  score_boost : string
}.
End SkuAliasRow.

Section AliasTable.
(** The builtin [parseFloat]; [None] stands for NaN. *)
Variable parseFloat : string -> option Q.

(** [parseFloat(score_boost.toString()) || 0.3] *)
Definition boost_of (score_boost : string) : Q :=
  match parseFloat score_boost with
  | Some q => if Js.truthy_q q then q else 3 # 10
  | None => 3 # 10
  end.

Definition entry_of (row : SkuAliasRow.t) : AliasEntry :=
  {| alias := Js.toLowerCase (SkuAliasRow.alias row);
     boost := boost_of (SkuAliasRow.score_boost row) |}.

(** One turn of the loop of [initializeAliases]: create the list of the
    SKU when it has none, then push the entry on it. *)
Definition add_alias (table : gmap string (list AliasEntry))
  (row : SkuAliasRow.t) : gmap string (list AliasEntry) :=
  let code := SkuAliasRow.sku_code row in
  let table1 :=
    match table !! code with
    | Some _ => table
    | None => <[ code := [] ]> table
    end in
  match table1 !! code with
  | Some entries => <[ code := (entries ++ [entry_of row])%list ]> table1
  | None => table1
  end.

Definition fallbackAliases : list (string * list string) :=
  [ ("NFC25", ["25mm"; "25"; "corrugated"; "flexible"]);
    ("NFC32", ["32mm"; "32"; "corrugated"; "flexible"]);
    ("PVC25M", ["25mm"; "25"; "pvc"; "conduit"; "medium"]);
    ("GFB3OCT", ["fan box"; String.append "3" dquote; "3 inch"; "octagonal"])
  ]%string.

Definition initializeFallbackAliases (table : gmap string (list AliasEntry))
  : gmap string (list AliasEntry) :=
  fold_left
    (fun t entry =>
       <[ fst entry :=
            map (fun a => {| alias := Js.toLowerCase a; boost := 3 # 10 |})
                (snd entry) ]> t)
    fallbackAliases table.

(** [initializeAliases] on the fresh table of a new service; [None] is the
    alias source throwing, which the [catch] turns into the fallback. *)
Definition initializeAliases (source : option (list SkuAliasRow.t))
  : gmap string (list AliasEntry) :=
  match source with
  | Some aliasData => fold_left add_alias aliasData ∅
  | None => initializeFallbackAliases ∅
  end.

End AliasTable.

(** ** The alias file ([ConfigService]) *)

(** A value or a thrown [Error] with its message. *)
Inductive result (A : Type) :=
| Ok (value : A)
| Err (message : string).
Arguments Ok {A} value.
Arguments Err {A} message.

(** [s.split(sep)] for a separator of one character. *)
Fixpoint split_on_from (sep : ascii) (cur : string) (s : string)
  : list string :=
  match s with
  | EmptyString => [cur]
  | String c s' =>
      if Ascii.eqb c sep then cur :: split_on_from sep EmptyString s'
      else split_on_from sep (cur ++ String c EmptyString) s'
  end.

Definition split_on (sep : ascii) (s : string) : list string :=
  split_on_from sep EmptyString s.

(** [arr.indexOf(x)], [None] for -1. *)
Fixpoint indexOf (l : list string) (x : string) : option nat :=
  match l with
  | [] => None
  | y :: l' =>
      if String.eqb y x then Some 0%nat
      else option_map S (indexOf l' x)
  end.

Definition newline : ascii := ascii_of_N 10.
Definition comma : ascii := ascii_of_N 44.
Definition quote_char : ascii := ascii_of_N 34.

Definition too_few_lines : string :=
  "SKU aliases CSV must have header and at least one data row".
Definition missing_columns : string :=
  "SKU aliases CSV missing required columns: alias, sku_code, score_boost".

(** One turn of the loop over the data lines: the row pushed, if any. *)
Definition parse_alias_row (aliasIndex skuCodeIndex scoreBoostIndex : nat)
  (raw : string) : list SkuAliasRow.t :=
  let line := Js.trim raw in
  if (negb (Js.truthy_string line) || String.prefix "#" line)%bool then []
  else
    let values := map Js.trim (split_on comma line) in
    if Nat.ltb (List.length values) 3 then []
    else
      let alias := nth_error values aliasIndex in
      let skuCode := nth_error values skuCodeIndex in
      let scoreBoost := nth_error values scoreBoostIndex in
      match alias, skuCode, scoreBoost with
      | Some a, Some c, Some b =>
          if (Js.truthy_string a && Js.truthy_string c
              && Js.truthy_string b)%bool
          then [SkuAliasRow.mk a c b] else []
      | _, _, _ => []
      end.

Definition parseSkuAliasesCsv (csvContent : string)
  : result (list SkuAliasRow.t) :=
  let lines := split_on newline (Js.trim csvContent) in
  if Nat.ltb (List.length lines) 2 then Err too_few_lines
  else
    let headers :=
      map (fun h => Js.toLowerCase (Js.trim h))
          (split_on comma (hd EmptyString lines)) in
    match indexOf headers "alias", indexOf headers "sku_code",
          indexOf headers "score_boost" with
    | Some aliasIndex, Some skuCodeIndex, Some scoreBoostIndex =>
        Ok (flat_map (parse_alias_row aliasIndex skuCodeIndex scoreBoostIndex)
              (tl lines))
    | _, _, _ => Err missing_columns
    end.

(** [getSkuAliases]: the file is read (or the read throws), parsed, and any
    error is thrown again under a common prefix. *)
Definition getSkuAliases (file : result string) : result (list SkuAliasRow.t) :=
  let rethrow m := Err ("Failed to load SKU aliases: " ++ m) in
  match file with
  | Err m => rethrow m
  | Ok csvContent =>
      match parseSkuAliasesCsv csvContent with
      | Ok rows => Ok rows
      | Err m => rethrow m
      end
  end.

(** The alias table of a new [DeterministicMappingService]. *)
Definition loadAliases (parseFloat : string -> option Q) (file : result string)
  : gmap string (list AliasEntry) :=
  initializeAliases parseFloat
    (match getSkuAliases file with
     | Ok rows => Some rows
     | Err _ => None
     end).

(** [parseCSVLine] of the price master: fields are separated by commas
    outside double quotes, a doubled quote inside quotes is one quote, and
    every field is trimmed. *)
Fixpoint parseCSVLine_from (current : string) (inQuotes : bool)
  (line : string) : list string :=
  match line with
  | EmptyString => [Js.trim current]
  | String char rest =>
      if Ascii.eqb char quote_char then
        match inQuotes, rest with
        | true, String next rest' =>
            if Ascii.eqb next quote_char
            then parseCSVLine_from (current ++ String quote_char EmptyString)
                   inQuotes rest'
            else parseCSVLine_from current (negb inQuotes) rest
        | _, _ => parseCSVLine_from current (negb inQuotes) rest
        end
      else if (Ascii.eqb char comma && negb inQuotes)%bool then
        Js.trim current :: parseCSVLine_from EmptyString inQuotes rest
      else parseCSVLine_from (current ++ String char EmptyString) inQuotes rest
  end.

Definition parseCSVLine (line : string) : list string :=
  parseCSVLine_from EmptyString false line.

(** [c] occurs in [s]. *)
Fixpoint has_char (c : ascii) (s : string) : bool :=
  match s with
  | EmptyString => false
  | String x s' => (Ascii.eqb x c || has_char c s')%bool
  end.

(** ** Callers of the mapping service *)

Definition is_status (s : Status) (r : MappingResult) : bool :=
  match s, status r with
  | auto_mapped, auto_mapped | needs_review, needs_review
  | failed, failed => true
  | _, _ => false
  end.

(** The SKU code [createQuote] prices a mapped line with: the selected SKU
    of an auto-mapped line, else the first candidate. *)
Definition selectedSkuCode (r : MappingResult) : option string :=
  if (is_status auto_mapped r && Js.truthy_str (selected_sku r))%bool
  then selected_sku r
  else match candidates r with
       | c :: _ => Some (sku_code c)
       | [] => None
       end.

(** [skuCatalog.forEach(sku => skuMap.set(sku.skuCode, sku))] *)
Definition skuMap (skuCatalog : list SKU.t) : gmap string SKU.t :=
  fold_left (fun m sku => <[ SKU.skuCode sku := sku ]> m) skuCatalog ∅.

(** The SKU a mapped line is quoted with; [None] when the loop of
    [createQuote] skips the line. *)
Definition quotedSku (skuCatalog : list SKU.t) (r : MappingResult)
  : option SKU.t :=
  match selectedSkuCode r with
  | Some code => if Js.truthy_string code then skuMap skuCatalog !! code
                 else None
  | None => None
  end.

(** The [mapped_sku] the quote endpoint records for an original item. *)
Definition mappedSku (r : MappingResult) : string :=
  if (is_status auto_mapped r && Js.truthy_str (selected_sku r))%bool
  then match selected_sku r with Some c => c | None => "Not mapped" end
  else match candidates r with
       | c :: _ => sku_code c
       | [] => "Not mapped"
       end.

(** The summary of the mapping endpoint. *)
Record MappingSummary := {
  total_lines : nat;
  summary_auto_mapped : nat;
  summary_needs_review : nat;
  summary_failed : nat
}.

Definition count_status (s : Status)
  (mappedLines : list (ParsedLineItem.t * MappingResult)) : nat :=
  List.length (List.filter (fun l => is_status s (snd l)) mappedLines).

Definition mappingSummary
  (mappedLines : list (ParsedLineItem.t * MappingResult)) : MappingSummary :=
  {| total_lines := List.length mappedLines;
     summary_auto_mapped := count_status auto_mapped mappedLines;
     summary_needs_review := count_status needs_review mappedLines;
     summary_failed := count_status failed mappedLines |}.

(** [calculateMappingSuccessRate] of the PDF service, on the optional
    [original_items] of a quote, each reduced to its optional
    [mapped_sku]. *)
Definition is_mapped (mapped_sku : option string) : bool :=
  (Js.truthy_str mapped_sku
   && negb (eq_opt "Not mapped" mapped_sku))%bool.

Definition calculateMappingSuccessRate
  (original_items : option (list (option string))) : Q :=
  match original_items with
  | None => 1
  | Some items =>
      if Nat.eqb (List.length items) 0 then 1
      else of_nat (List.length (List.filter is_mapped items))
           / of_nat (List.length items)
  end.

(** The totals of [createQuote]. *)
Record PricingConfig := {
  default_freight_rate : Q;
  freight_min_amount : Q
}.

Record QuoteTotals := {
  subtotal : Q;
  discount : Q;
  freight : Q;
  tax : Q;
  grand_total : Q
}.

Definition quoteTotals (pricingConfig : PricingConfig)
  (line_totals : list Q) (header_discount_pct : Q) (freight_taxable : bool)
  : QuoteTotals :=
  let subtotal := fold_left (fun sum item => sum + item) line_totals 0 in
  let discount := subtotal * (header_discount_pct / 100) in
  let discountedAmount := subtotal - discount in
  let freightAmount :=
    Qmax (discountedAmount * default_freight_rate pricingConfig)
         (freight_min_amount pricingConfig) in
  let freight := if freight_taxable then freightAmount else freightAmount in
  let taxableAmount :=
    discountedAmount + (if freight_taxable then freight else 0) in
  let tax := taxableAmount * (18 # 100) in
  {| subtotal := subtotal;
     discount := discount;
     freight := freight;
     tax := tax;
     grand_total := discountedAmount + freight + tax |}.

(** ** Vocabulary of the statements and concrete scenarios *)

(** Every entry of a row, numbered from column [j], is at most
    [max i j]: row [i] of the table has this property. *)
Fixpoint bounded (i j : nat) (row : list nat) : Prop :=
  match row with
  | [] => True
  | d :: row' => (d <= Nat.max i j)%nat /\ bounded i (S j) row'
  end.

Definition unit_interval (q : Q) : Prop := 0 <= q <= 1.

(** [a] may stand before [b] in a list ranked by descending score. *)
Definition desc (a b : SKUCandidate) : Prop := score b <= score a.

(** The candidates of score [q]; a sort is stable when it keeps each such
    sub-list as it was. *)
Definition has_score (q : Q) (c : SKUCandidate) : bool := Qeq_bool (score c) q.

(** An engine with the default thresholds and any alias table. *)
Definition default_engine (al : gmap string (list AliasEntry)) : Engine :=
  {| config := default_config; aliases := al |}.

(** A line that arrives already normalized, without raw tokens. *)
Definition line_of (text : string) (n : Normalized.t) : ParsedLineItem.t :=
  ParsedLineItem.mk text 1 "M" (RawTokens.mk None None None None None) (Some n).

(** A corrugated pipe of 25 mm that declares a tolerance of 5 mm, and a
    request for 29 mm. *)
Definition sku_wide_tolerance : SKU.t :=
  SKU.mk "NFC25" CFP "Corrugated Flexible Pipe 25mm" "PP" None
    (Some 25) None (Some 5).

Definition line_29mm : ParsedLineItem.t :=
  line_of "29mm corrugated pipe" (Normalized.mk (Some 29) None None None).

(** The compatibility rule in the words of section 4.3, over material codes
    read through [norm]: an exact match with the material or the alternate
    material of the SKU, or the hierarchy of the corrugated pipe family. *)
Definition compatible_with (norm : string -> string) (m : string)
  (sku : SKU.t) : Prop :=
  let requested := norm m in
  let mat := norm (SKU.material sku) in
  let alt := option_map norm (SKU.altMaterial sku) in
  (requested = mat \/ alt = Some requested)
  \/ (SKU.productFamily sku = CFP
      /\ (((requested = "FRPP"%string \/ requested = "FR"%string)
           /\ (mat = "PP"%string \/ alt = Some "FRPP"%string))
          \/ (requested = "PP"%string /\ mat = "PP"%string))).

(** A rigid conduit whose catalog row spells its material in lower case,
    and a request whose material was normalized to PVC. *)
Definition sku_lowercase_material : SKU.t :=
  SKU.mk "PVC25M" RPC "PVC Conduit 25mm Medium" "pvc" (Some "M"%string)
    (Some 25) None None.

Definition line_pvc : ParsedLineItem.t :=
  line_of "25mm pvc conduit"
    (Normalized.mk (Some 25) (Some "PVC"%string) None None).

Definition sku_cfp_pp : SKU.t :=
  SKU.mk "NFC25" CFP "Corrugated Flexible Pipe 25mm" "PP" None
    (Some 25) (Some "FRPP"%string) (Some 2).

Definition line_fr : ParsedLineItem.t :=
  line_of "25mm corrugated pipe"
    (Normalized.mk (Some 25) (Some "FR"%string) None None).

(** The line and the SKU both carry a material, and the two agree.  The
    scorer compares them lower-cased, so an exact match is one instance. *)
Definition material_match (line : ParsedLineItem.t) (sku : SKU.t) : Prop :=
  exists m : string,
    ParsedLineItem.material line = Some m
    /\ Js.truthy_string m = true
    /\ Js.truthy_string (SKU.material sku) = true
    /\ Js.toLowerCase m = Js.toLowerCase (SKU.material sku).

Definition line_unset (line : ParsedLineItem.t) : Prop :=
  Js.truthy_str (ParsedLineItem.material line) = false.

Definition sku_unset (sku : SKU.t) : Prop :=
  Js.truthy_string (SKU.material sku) = false.

(** A rigid conduit of medium gauge, and a request for PVC that names no
    gauge. *)
Definition sku_pvc_medium : SKU.t :=
  SKU.mk "PVC25M" RPC "PVC Conduit 25mm Medium" "PVC" (Some "M"%string)
    (Some 25) None None.

Definition line_pvc_heavy : ParsedLineItem.t :=
  line_of "25mm pvc conduit heavy"
    (Normalized.mk (Some 25) (Some "PVC"%string) None (Some "H"%string)).

(** The test a SKU must pass to be pushed on the candidate list. *)
Definition admitted (this : Engine) (line : ParsedLineItem.t)
  (inputFamily : string) (sku : SKU.t) : bool :=
  (passesHardConstraints this line sku inputFamily
   && Js.gtb (score (scoreSKUMatch this line sku)) (1 # 10))%bool.

Definition line_25mm_pp : ParsedLineItem.t :=
  line_of "25mm corrugated PP pipe"
    (Normalized.mk (Some 25) (Some "PP"%string) None None).

Definition seed_aliases : gmap string (list AliasEntry) :=
  <[ "NFC25"%string :=
       [ {| alias := "25mm"; boost := 3 # 10 |};
         {| alias := "corrugated"; boost := 3 # 10 |} ] ]> ∅.

(** A SKU whose description shares nothing with the request. *)
Definition sku_unrelated : SKU.t :=
  SKU.mk "MSB4" "MS Box" "abcdefghij" "MS" None None None None.

Definition line_x : ParsedLineItem.t :=
  ParsedLineItem.mk "x" 1 "PC" (RawTokens.mk None None None None None) None.

Definition sku_cfp_26 : SKU.t :=
  SKU.mk "NFC26" CFP "Flexible conduit 26" "PP" None (Some 26) None None.

Definition closed_codes : list string :=
  ["PVC"; "PP"; "FRPP"; "FR"; "MS"; "NYLON"; "HDPE"; "LDPE"]%string.

(** The substrings the rules of [normalizeMaterial] look for. *)
Definition markers : list string :=
  ["frpp"; "fr-pp"; "fr"; "pp"; "pvc"; "nylon"; "hdpe"; "ldpe"; "ms"; "gi";
   "galvanized"; "polypropylene"]%string.

Definition has_marker (material : string) : bool :=
  existsb (Js.includes (Js.trim (Js.toLowerCase material))) markers.

Definition line_brass : ParsedLineItem.t :=
  ParsedLineItem.mk "brass gland" 1 "PC"
    (RawTokens.mk None None (Some "brass"%string) None None) None.

(** ** Vocabulary of the further properties *)

Fixpoint has_digit (s : string) : bool :=
  match s with
  | EmptyString => false
  | String c s' => (Js.is_digit c || has_digit s')%bool
  end.

Fixpoint all_digits (s : string) : bool :=
  match s with
  | EmptyString => true
  | String c s' => (Js.is_digit c && all_digits s')%bool
  end.

(** [rest] does not continue a run of digits. *)
Definition no_digit_ahead (rest : string) : bool :=
  match rest with
  | EmptyString => true
  | String c _ => negb (Js.is_digit c)
  end.

(** The number a run of decimal digits denotes. *)
Definition decimal (ds : string) : Q := inject_Z (Z.of_N (digits_value 0 ds)).

(** An optional number is defined and equal, as a rational, to [q]. *)
Definition size_is (o : option Q) (q : Q) : Prop :=
  exists r : Q, o = Some r /\ r == q.

(** Every boost of the alias table is at most [B]. *)
Definition boosts_le (B : Q) (table : gmap string (list AliasEntry)) : Prop :=
  forall (code : string) (entries : list AliasEntry),
    table !! code = Some entries ->
    List.Forall (fun e => boost e <= B) entries.

(** The rows of the alias file that name SKU [code], as table entries, in
    file order. *)
Definition rows_of (parseFloat : string -> option Q) (code : string)
  (aliasData : list SkuAliasRow.t) : list AliasEntry :=
  map (entry_of parseFloat)
      (List.filter (fun row => String.eqb (SkuAliasRow.sku_code row) code)
                   aliasData).

Definition some_if_nonempty {A : Type} (l : list A) : option (list A) :=
  match l with [] => None | _ => Some l end.

(** A candidate with a given score and nothing else of note. *)
Definition cand_of (s : SKU.t) (q : Q) : SKUCandidate :=
  {| sku := s; score := q; reasons := [];
     breakdown := {| fuzzy_score := q; size_score := 0;
                     material_score := 0; alias_score := 0 |} |}.

(** The [mapped_sku] fields of the original items the quote endpoint hands
    to [createQuote], one per mapped line. *)
Definition originalItems
  (mappedLines : list (ParsedLineItem.t * MappingResult))
  : list (option string) :=
  map (fun l => Some (mappedSku (snd l))) mappedLines.

(** A SKU code that is neither empty nor the placeholder of unmapped
    items. *)
Definition proper_code (sku : SKU.t) : Prop :=
  Js.truthy_string (SKU.skuCode sku) = true
  /\ SKU.skuCode sku <> "Not mapped"%string.

(** * Properties *)

(** ** The primitives on concrete inputs *)

Example toLowerCase_ex :
  Js.toLowerCase "25mm Corrugated PP" = "25mm corrugated pp"%string.
Proof. reflexivity. Qed.

Example trim_ex : Js.trim "  fr pp  " = "fr pp"%string.
Proof. reflexivity. Qed.

Example split_ws_ex :
  Js.split_ws " fan  box " = [""; "fan"; "box"; ""]%string
  /\ Js.split_ws "" = [""%string].
Proof. split; reflexivity. Qed.

Example levenshtein_ex :
  levenshtein.get "kitten" "sitting" = 3%nat
  /\ levenshtein.get "" "abc" = 3%nat
  /\ levenshtein.get "saturday" "sunday" = 3%nat.
Proof. repeat split; reflexivity. Qed.

Example extractSizeMm_ex :
  extractSizeMm "25mm" = Some 25
  /\ option_map Qred (extractSizeMm "size 1.5 Inch") = Some (381 # 10)
  /\ extractSizeMm "no size" = None.
Proof. repeat split; reflexivity. Qed.

Example normalizeMaterial_ex :
  map normalizeMaterial ["FR PP"; "pvc conduit"; " fr "; "GI"; "copper"]%string
  = ["FRPP"; "PVC"; "FR"; "MS"; "PP"]%string.
Proof. reflexivity. Qed.

Example getProductFamily_ex :
  getProductFamily "25mm corrugated PP pipe" = CFP
  /\ getProductFamily "x" = "Unknown"%string.
Proof. split; reflexivity. Qed.

(** The tiers of the size sub-score at the configured tolerance of 2 mm,
    against a nominal size of 25 mm. *)
Example size_tiers_ex :
  map (fun size =>
         calculateSizeScore (default_engine ∅)
           (line_of "pipe" (Normalized.mk (Some size) None None None))
           sku_cfp_pp)
      [26; 28; 32; 35]
  = [1; 7 # 10; 3 # 10; 0].
Proof. reflexivity. Qed.


(** ** Comparisons on numbers *)

Lemma leb_spec (a b : Q) : Js.leb a b = true <-> a <= b.
Proof. apply Qle_bool_iff. Qed.

Lemma geb_spec (a b : Q) : Js.geb a b = true <-> b <= a.
Proof. apply Qle_bool_iff. Qed.

Lemma ltb_spec (a b : Q) : Js.ltb a b = true <-> a < b.
Proof.
  unfold Js.ltb. rewrite negb_true_iff. split.
  - intros E. apply Qnot_le_lt. intros L.
    apply Qle_bool_iff in L. congruence.
  - intros L. destruct (Qle_bool b a) eqn:E; [|reflexivity].
    apply Qle_bool_iff in E. lra.
Qed.

Lemma gtb_spec (a b : Q) : Js.gtb a b = true <-> b < a.
Proof. apply ltb_spec. Qed.

Lemma ltb_false (a b : Q) : Js.ltb a b = false <-> b <= a.
Proof.
  unfold Js.ltb. rewrite negb_false_iff. apply Qle_bool_iff.
Qed.

Lemma gtb_false (a b : Q) : Js.gtb a b = false <-> a <= b.
Proof. apply ltb_false. Qed.

Lemma leb_false (a b : Q) : Js.leb a b = false <-> b < a.
Proof.
  rewrite <- ltb_spec. unfold Js.ltb, Js.leb.
  destruct (Qle_bool a b); simpl; split; congruence.
Qed.

Lemma of_nat_nonneg (n : nat) : 0 <= of_nat n.
Proof.
  unfold of_nat. change 0 with (inject_Z 0). rewrite <- Zle_Qle. lia.
Qed.

Lemma of_nat_le (n m : nat) : (n <= m)%nat -> of_nat n <= of_nat m.
Proof. intros H. unfold of_nat. rewrite <- Zle_Qle. lia. Qed.

Lemma of_nat_pos (n : nat) : (0 < n)%nat -> 0 < of_nat n.
Proof.
  intros H. unfold of_nat. change 0 with (inject_Z 0). rewrite <- Zlt_Qlt. lia.
Qed.

(** A quotient of two naturals, the upper one the smaller, is in [0,1]. *)
Lemma ratio_unit (n m : nat) :
  (n <= m)%nat -> (0 < m)%nat -> 0 <= of_nat n / of_nat m <= 1.
Proof.
  intros Hle Hpos.
  pose proof (of_nat_pos m Hpos) as Hm.
  pose proof (of_nat_nonneg n) as Hn.
  pose proof (of_nat_le n m Hle) as Hnm.
  split.
  - apply Qle_shift_div_l; [assumption | lra].
  - apply Qle_shift_div_r; [assumption | lra].
Qed.

(** ** The edit distance is at most the longer length *)

Module levenshtein_facts.
Import levenshtein.

Lemma bounded_seq (j n : nat) : bounded 0 j (List.seq j n).
Proof.
  revert j. induction n as [|n IH]; intros j; simpl; [exact I|].
  split; [lia | apply IH].
Qed.

Lemma next_row_bounded (x : ascii) (b : list ascii) :
  forall (prev : list nat) (left i j : nat),
    bounded i j prev ->
    bounded (S i) (S j) (next_row x b prev left).
Proof.
  induction b as [|y b IH]; intros prev left i j Hprev;
    cbn [next_row bounded]; [exact I|].
  destruct prev as [|diag [|up prev']]; cbn [next_row bounded]; try exact I.
  destruct Hprev as [Hdiag Hrest].
  split.
  - destruct (Ascii.eqb x y); lia.
  - apply IH. exact Hrest.
Qed.

Lemma next_row_length (x : ascii) (b : list ascii) :
  forall (prev : list nat) (left : nat),
    (List.length (next_row x b prev left) <= List.length b)%nat.
Proof.
  induction b as [|y b IH]; intros prev left;
    cbn [next_row List.length]; [lia|].
  destruct prev as [|diag [|up prev']]; cbn [next_row List.length]; try lia.
  specialize (IH (up :: prev')
    (Nat.min (Nat.min (S up) (S left))
       (diag + (if Ascii.eqb x y then 0 else 1)))).
  lia.
Qed.

Lemma step_bounded (b : list ascii) (prev : list nat) (x : ascii) (i : nat) :
  bounded i 0 prev -> bounded (S i) 0 (step b prev x).
Proof.
  intros Hprev. unfold step. destruct prev as [|d prev']; [exact I|].
  split.
  - destruct Hprev as [Hd _]. lia.
  - apply next_row_bounded. exact Hprev.
Qed.

Lemma step_length (b : list ascii) (prev : list nat) (x : ascii) :
  (List.length (step b prev x) <= S (List.length b))%nat.
Proof.
  unfold step. destruct prev as [|d prev']; simpl; [lia|].
  pose proof (next_row_length x b (d :: prev') (S d)). lia.
Qed.

Lemma rows_bounded (b : list ascii) (a : list ascii) :
  forall (row : list nat) (i : nat),
    bounded i 0 row ->
    (List.length row <= S (List.length b))%nat ->
    let final := fold_left (step b) a row in
    bounded (i + List.length a) 0 final
    /\ (List.length final <= S (List.length b))%nat.
Proof.
  induction a as [|x a IH]; intros row i Hrow Hlen; simpl.
  - rewrite Nat.add_0_r. split; assumption.
  - replace (i + S (List.length a))%nat with (S i + List.length a)%nat by lia.
    apply IH; [apply step_bounded; exact Hrow | apply step_length].
Qed.

Lemma last_bounded (row : list nat) :
  forall i j, bounded i j row ->
    (List.last row 0 <= Nat.max i (j + Nat.pred (List.length row)))%nat.
Proof.
  induction row as [|d row IH]; intros i j Hb; simpl; [lia|].
  destruct Hb as [Hd Hrest].
  destruct row as [|d' row'].
  - simpl. lia.
  - specialize (IH i (S j) Hrest). simpl in IH |- *. simpl. lia.
Qed.

Lemma dist_le_max (a b : list ascii) :
  (dist a b <= Nat.max (List.length a) (List.length b))%nat.
Proof.
  unfold dist.
  destruct (rows_bounded b a (List.seq 0 (S (List.length b))) 0) as [Hb Hl].
  - apply bounded_seq.
  - rewrite length_seq. lia.
  - pose proof (last_bounded _ _ _ Hb) as H. cbv zeta in Hl. lia.
Qed.

Lemma length_list_ascii (s : string) :
  List.length (list_ascii_of_string s) = String.length s.
Proof. induction s as [|c s IH]; simpl; [reflexivity | now rewrite IH]. Qed.

Lemma get_le_max (a b : string) :
  (get a b <= Nat.max (String.length a) (String.length b))%nat.
Proof.
  unfold get. rewrite <- !length_list_ascii. apply dist_le_max.
Qed.

End levenshtein_facts.

(** ** Ranges of the four sub-scores *)

Lemma calculateFuzzyScore_unit (input : string) (sku : SKU.t) :
  unit_interval (calculateFuzzyScore input sku).
Proof.
  unfold unit_interval, calculateFuzzyScore.
  set (a := Js.toLowerCase input).
  set (b := Js.toLowerCase (SKU.description sku)).
  destruct (Nat.ltb_spec 0 (Nat.max (String.length a) (String.length b)))
    as [Hpos | _]; [|lra].
  pose proof (ratio_unit _ _ (levenshtein_facts.get_le_max a b) Hpos). lra.
Qed.

Lemma calculateSizeScore_unit (this : Engine) (line : ParsedLineItem.t)
  (sku : SKU.t) : unit_interval (calculateSizeScore this line sku).
Proof.
  unfold unit_interval, calculateSizeScore.
  repeat match goal with
         | |- context [match ?x with _ => _ end] => destruct x
         end; lra.
Qed.

Lemma calculateMaterialScore_unit (line : ParsedLineItem.t) (sku : SKU.t) :
  unit_interval (calculateMaterialScore line sku).
Proof.
  unfold unit_interval, calculateMaterialScore.
  repeat match goal with
         | |- context [match ?x with _ => _ end] => destruct x
         end; lra.
Qed.

Lemma alias_step_increasing (inputLower : string) (m : Q) (e : AliasEntry) :
  m <= alias_step inputLower m e.
Proof.
  unfold alias_step.
  repeat match goal with
         | |- context [if ?x then _ else _] => destruct x
         end;
    repeat (eapply Qle_trans; [|apply Q.le_max_l]); apply Qle_refl.
Qed.

Lemma alias_fold_increasing (inputLower : string) (l : list AliasEntry) :
  forall m : Q, m <= fold_left (alias_step inputLower) l m.
Proof.
  induction l as [|e l IH]; intros m; simpl; [lra|].
  pose proof (alias_step_increasing inputLower m e).
  pose proof (IH (alias_step inputLower m e)). lra.
Qed.

Lemma calculateAliasScore_unit (this : Engine) (input : string) (sku : SKU.t) :
  unit_interval (calculateAliasScore this input sku).
Proof.
  unfold unit_interval, calculateAliasScore.
  destruct (aliases this !! SKU.skuCode sku) as [l|]; [|lra].
  split.
  - apply Q.min_glb; [apply alias_fold_increasing | lra].
  - apply Q.le_min_r.
Qed.

(** ** The sort of [findCandidates] *)

Lemma insert_perm (x : SKUCandidate) (l : list SKUCandidate) :
  Permutation (insert_by by_score_desc x l) (x :: l).
Proof.
  induction l as [|y l IH]; simpl; [reflexivity|].
  destruct (Js.gtb (by_score_desc x y) 0); [|reflexivity].
  rewrite IH. apply perm_swap.
Qed.

Lemma sort_perm (l : list SKUCandidate) :
  Permutation (sort by_score_desc l) l.
Proof.
  induction l as [|x l IH]; simpl; [reflexivity|].
  unfold sort in IH. rewrite insert_perm. now rewrite IH.
Qed.

Lemma insert_sorted (x : SKUCandidate) (l : list SKUCandidate) :
  StronglySorted desc l -> StronglySorted desc (insert_by by_score_desc x l).
Proof.
  induction 1 as [|y l Hl IH Hy]; simpl.
  - constructor; constructor.
  - destruct (Js.gtb (by_score_desc x y) 0) eqn:E.
    + apply gtb_spec in E. unfold by_score_desc in E.
      constructor; [exact IH|].
      eapply Permutation_Forall; [symmetry; apply insert_perm|].
      constructor; [unfold desc; lra | exact Hy].
    + apply gtb_false in E. unfold by_score_desc in E.
      constructor; [constructor; assumption|].
      constructor; [unfold desc; lra|].
      eapply Forall_impl; [exact Hy|].
      unfold desc. intros z Hz. lra.
Qed.

Lemma sort_sorted (l : list SKUCandidate) :
  StronglySorted desc (sort by_score_desc l).
Proof.
  induction l as [|x l IH]; simpl; [constructor|].
  apply insert_sorted. exact IH.
Qed.

Lemma insert_stable (q : Q) (x : SKUCandidate) (l : list SKUCandidate) :
  List.filter (has_score q) (insert_by by_score_desc x l)
  = List.filter (has_score q) (x :: l).
Proof.
  induction l as [|y l IH]; [reflexivity|].
  cbn [insert_by].
  destruct (Js.gtb (by_score_desc x y) 0) eqn:E; [|reflexivity].
  apply gtb_spec in E. unfold by_score_desc in E.
  cbn [List.filter] in IH |- *. rewrite IH.
  destruct (has_score q x) eqn:Hx; [|reflexivity].
  destruct (has_score q y) eqn:Hy; [|reflexivity].
  unfold has_score in Hx, Hy.
  apply Qeq_bool_iff in Hx. apply Qeq_bool_iff in Hy. lra.
Qed.

Lemma sort_stable (q : Q) (l : list SKUCandidate) :
  List.filter (has_score q) (sort by_score_desc l) = List.filter (has_score q) l.
Proof.
  induction l as [|x l IH]; [reflexivity|].
  change (sort by_score_desc (x :: l))
    with (insert_by by_score_desc x (sort by_score_desc l)).
  rewrite insert_stable. cbn [List.filter]. now rewrite IH.
Qed.

Lemma has_score_self (c : SKUCandidate) : has_score (score c) c = true.
Proof. unfold has_score. apply Qeq_bool_iff. reflexivity. Qed.

Lemma filter_head_in (q : Q) (l : list SKUCandidate) (c : SKUCandidate)
  (t : list SKUCandidate) :
  List.filter (has_score q) l = c :: t -> In c l.
Proof.
  intros E. assert (H : In c (List.filter (has_score q) l))
    by (rewrite E; now left).
  now apply filter_In in H.
Qed.

(** The contract of the sort leaves one result only: two ranked lists with
    the same candidates of every score, in the same order, are equal.  So
    any stable algorithm returns what [sort] returns. *)
Lemma stable_sorted_unique (l1 : list SKUCandidate) :
  forall l2 : list SKUCandidate,
    StronglySorted desc l1 -> StronglySorted desc l2 ->
    (forall q, List.filter (has_score q) l1 = List.filter (has_score q) l2) ->
    l1 = l2.
Proof.
  induction l1 as [|x l1 IH]; intros l2 S1 S2 Hf.
  - destruct l2 as [|y l2]; [reflexivity|].
    specialize (Hf (score y)). cbn [List.filter] in Hf.
    rewrite has_score_self in Hf. discriminate.
  - destruct l2 as [|y l2].
    + specialize (Hf (score x)). cbn [List.filter] in Hf.
      rewrite has_score_self in Hf. discriminate.
    + apply StronglySorted_inv in S1 as [S1 F1].
      apply StronglySorted_inv in S2 as [S2 F2].
      rewrite List.Forall_forall in F1, F2.
      assert (Lyx : score y <= score x).
      { assert (In y (x :: l1)) as [<- | E]; [|lra | now apply F1].
        apply (filter_head_in (score y) _ _
                 (List.filter (has_score (score y)) l2)).
        rewrite Hf. cbn [List.filter]. now rewrite has_score_self. }
      assert (Lxy : score x <= score y).
      { assert (In x (y :: l2)) as [<- | E]; [|lra | now apply F2].
        apply (filter_head_in (score x) _ _
                 (List.filter (has_score (score x)) l1)).
        rewrite <- Hf. cbn [List.filter]. now rewrite has_score_self. }
      assert (x = y) as <-.
      { pose proof (Hf (score x)) as E. cbn [List.filter] in E.
        rewrite (has_score_self x) in E.
        assert (has_score (score x) y = true) as Hy
            by (unfold has_score; apply Qeq_bool_iff; lra).
        rewrite Hy in E. now injection E. }
      f_equal. apply IH; try assumption.
      intros q. specialize (Hf q). cbn [List.filter] in Hf.
      destruct (has_score q x); [now injection Hf | exact Hf].
Qed.

Lemma sort_unique (l sorted : list SKUCandidate) :
  StronglySorted desc sorted ->
  (forall q, List.filter (has_score q) sorted = List.filter (has_score q) l) ->
  sorted = sort by_score_desc l.
Proof.
  intros Hs Hf. apply stable_sorted_unique;
    [exact Hs | apply sort_sorted |].
  intros q. now rewrite sort_stable.
Qed.

Lemma sorted_adjacent (l : list SKUCandidate) :
  StronglySorted desc l ->
  forall (i : nat) (a b : SKUCandidate),
    nth_error l i = Some a -> nth_error l (S i) = Some b ->
    score b <= score a.
Proof.
  induction 1 as [|y l Hl IH Hy]; intros i a b Ha Hb.
  - destruct i; discriminate.
  - destruct i as [|i].
    + simpl in Ha, Hb. injection Ha as <-.
      rewrite Forall_forall in Hy. apply Hy.
      destruct l; [discriminate|]. injection Hb as <-. now left.
    + simpl in Ha. apply (IH i a b Ha). exact Hb.
Qed.

(** ** The decision engine *)

(** C1. On a candidate list [top :: rest] the review flag holds exactly
    when the score of [top] is below [auto_map_threshold], or a second
    candidate exists and the margin to it is below [confidence_delta]; the
    status is [needs_review] under the flag and [auto_mapped] otherwise; and
    [selected_sku] is set, to the code of [top], exactly when the status is
    [auto_mapped].  With thresholds 0.85 and 0.12, a lone candidate at 0.90
    is auto-mapped, and a candidate at 0.90 followed by one at 0.82 needs
    review. *)
Theorem C1_decision_policy :
  (forall (this : Engine) (top : SKUCandidate) (rest : list SKUCandidate)
          (line : ParsedLineItem.t),
      let r := decideMappingResult this (top :: rest) line in
      let flag := needsReview this top (head rest) in
      (flag = true <->
         score top < auto_map_threshold (config this)
         \/ exists second, head rest = Some second
              /\ score top - score second < confidence_delta (config this))
      /\ status r = (if flag then needs_review else auto_mapped)
      /\ (status r = auto_mapped <->
            selected_sku r = Some (SKU.skuCode (sku top)))
      /\ (status r = auto_mapped <-> selected_sku r <> None))
  /\ (forall al s rs b line,
        status (decideMappingResult (default_engine al)
                  [ {| sku := s; score := 90 # 100; reasons := rs;
                       breakdown := b |} ] line) = auto_mapped)
  /\ (forall al s rs b s' rs' b' line,
        status (decideMappingResult (default_engine al)
                  [ {| sku := s; score := 90 # 100; reasons := rs;
                       breakdown := b |};
                    {| sku := s'; score := 82 # 100; reasons := rs';
                       breakdown := b' |} ] line) = needs_review).
Proof.
  split; [|split; reflexivity].
  intros this top rest line r flag. subst r. cbn [decideMappingResult status
    selected_sku]. fold flag.
  split; [|split; [reflexivity|]].
  - subst flag. unfold needsReview. rewrite orb_true_iff, ltb_spec.
    split; (intros [H | H]; [left; exact H | right]).
    + destruct (head rest) as [second|]; [|discriminate].
      exists second. split; [reflexivity | now apply ltb_spec].
    + destruct H as [second [-> H]]. now apply ltb_spec.
  - destruct flag; split; split; congruence.
Qed.

(** C7. On the empty candidate list the decision is [failed], with no
    candidate, no selected SKU, and the assumption that no suitable SKU
    candidate was found; matching any line against the empty catalog
    reaches that decision.  Every function on the way is total. *)
Theorem C7_no_candidates_failed :
  forall (this : Engine) (line : ParsedLineItem.t),
    let r := decideMappingResult this [] line in
    status r = failed
    /\ candidates r = []
    /\ selected_sku r = None
    /\ In (Sentence "No suitable SKU candidates found")
          (Explanation.assumptions (explanation r))
    /\ findCandidates this line [] = []
    /\ mapLineItem this [] line
       = (normalizeLineItem line,
          decideMappingResult this [] (normalizeLineItem line))
    /\ forall lines : list ParsedLineItem.t,
         Forall (fun lr => status (snd lr) = failed
                           /\ candidates (snd lr) = [])
                (mapLineItems this lines []).
Proof.
  intros this line r. subst r. cbn.
  repeat split; auto.
  intros lines. unfold mapLineItems.
  induction lines as [|l lines IH]; constructor; [cbn; auto | exact IH].
Qed.

(** C10. The review flag stored in the explanation only tells whether there
    is a top candidate and whether its score is below [auto_map_threshold];
    the confidence margin plays no part in it.  So a result can have status
    [needs_review] while its explanation says that no review is needed. *)
Theorem C10_explanation_flag_ignores_margin :
  (forall (this : Engine) (cands : list SKUCandidate)
          (line : ParsedLineItem.t),
      Explanation.needs_review
        (explanation (decideMappingResult this cands line))
      = match cands with
        | [] => true
        | top :: _ => Js.ltb (score top) (auto_map_threshold (config this))
        end)
  /\ (forall al s rs b s' rs' b' line,
        let r := decideMappingResult (default_engine al)
                   [ {| sku := s; score := 90 # 100; reasons := rs;
                        breakdown := b |};
                     {| sku := s'; score := 82 # 100; reasons := rs';
                        breakdown := b' |} ] line in
        status r = needs_review
        /\ Explanation.needs_review (explanation r) = false).
Proof.
  split.
  - intros this [|top rest] line; reflexivity.
  - intros. split; reflexivity.
Qed.

(** ** The size sub-score *)

(** What [calculateSizeScore] computes: the tiers are cut at the tolerance
    of the configuration, whatever the tolerance of the SKU. *)
Lemma calculateSizeScore_tiers (this : Engine) (line : ParsedLineItem.t)
  (sku : SKU.t) (inputSize skuSize : Q) :
  ParsedLineItem.size_mm line = Some inputSize ->
  SKU.sizeOdMm sku = Some skuSize ->
  ~ inputSize == 0 -> ~ skuSize == 0 ->
  let d := Qabs (inputSize - skuSize) in
  let t := size_tolerance_mm (config this) in
  let s := calculateSizeScore this line sku in
  (d <= t -> s = 1)
  /\ (t < d -> d <= t * 2 -> s = 7 # 10)
  /\ (t * 2 < d -> d <= t * 4 -> s = 3 # 10)
  /\ (t < d -> t * 2 < d -> t * 4 < d -> s = 0).
Proof.
  intros Hl Hs Hi Hk d t s. subst s. unfold calculateSizeScore.
  rewrite Hl, Hs. unfold Js.truthy_q.
  destruct (Qeq_bool inputSize 0) eqn:Ei;
    [apply Qeq_bool_iff in Ei; contradiction|].
  destruct (Qeq_bool skuSize 0) eqn:Ek;
    [apply Qeq_bool_iff in Ek; contradiction|].
  cbn [negb orb]. fold d t.
  destruct (Js.leb d t) eqn:E1;
    [apply leb_spec in E1 | apply leb_false in E1];
    (destruct (Js.leb d (t * 2)) eqn:E2;
       [apply leb_spec in E2 | apply leb_false in E2]);
    (destruct (Js.leb d (t * 4)) eqn:E3;
       [apply leb_spec in E3 | apply leb_false in E3]);
    repeat split; intros; try reflexivity; lra.
Qed.

Lemma calculateSizeScore_missing (this : Engine) (line : ParsedLineItem.t)
  (sku : SKU.t) :
  ParsedLineItem.size_mm line = None \/ SKU.sizeOdMm sku = None ->
  calculateSizeScore this line sku = 0.
Proof.
  unfold calculateSizeScore. intros [-> | ->]; [reflexivity|].
  destruct (ParsedLineItem.size_mm line); reflexivity.
Qed.

(** C2.  The SKU's own tolerance, 5 mm, admits the 4 mm difference in the
    hard-constraint filter, yet the size sub-score is cut at the tolerance
    of the configuration, 2 mm: the pair scores 0.7, not 1.0. *)
Theorem C2_size_score_uses_config_tolerance :
  let this := default_engine ∅ in
  passesHardConstraints this line_29mm sku_wide_tolerance CFP = true
  /\ Qabs (29 - 25) <= num_or (SKU.toleranceMm sku_wide_tolerance)
                         (size_tolerance_mm (config this))
  /\ calculateSizeScore this line_29mm sku_wide_tolerance = 7 # 10.
Proof.
  cbv zeta. split; [reflexivity|]. split; [|reflexivity].
  apply Qle_bool_iff. reflexivity.
Qed.

(** ** Material compatibility *)

Lemma eq_opt_spec (i : string) (o : option string) :
  eq_opt i o = true <-> o = Some i.
Proof.
  destruct o as [a|]; simpl; [|split; discriminate].
  rewrite String.eqb_eq. split; [now intros -> | now intros [= ->]].
Qed.

Lemma eq_opt_false (i : string) (o : option string) :
  eq_opt i o = false <-> o <> Some i.
Proof.
  rewrite <- eq_opt_spec. destruct (eq_opt i o); split; congruence.
Qed.

(** Turn every string test of the goal and of [H] into an equation or a
    disequation. *)
Ltac reflect_tests H :=
  repeat match type of H with
         | context [String.eqb ?a ?b] => destruct (String.eqb_spec a b)
         | context [eq_opt ?a ?b] =>
             let E := fresh "E" in
             destruct (eq_opt a b) eqn:E;
             [apply eq_opt_spec in E | apply eq_opt_false in E]
         end.

Lemma isMaterialCompatible_spec (m : string) (sku : SKU.t) :
  isMaterialCompatible m sku = true <-> compatible_with Js.toUpperCase m sku.
Proof.
  unfold isMaterialCompatible, compatible_with.
  set (i := Js.toUpperCase m).
  set (mat := Js.toUpperCase (SKU.material sku)).
  set (alt := option_map Js.toUpperCase (SKU.altMaterial sku)).
  clearbody i mat alt.
  match goal with |- ?b = true <-> _ => remember b as test eqn:H end.
  reflect_tests H; cbn in H; subst test; unfold CFP in *;
    split; intros G; try reflexivity; try discriminate;
    intuition congruence.
Qed.

Lemma passes_material_ok (this : Engine) (line : ParsedLineItem.t)
  (sku : SKU.t) (fam : string) :
  passesHardConstraints this line sku fam
  = (family_ok sku fam && size_ok this line sku && material_ok line sku)%bool.
Proof.
  unfold passesHardConstraints.
  destruct (family_ok sku fam), (size_ok this line sku),
    (material_ok line sku); reflexivity.
Qed.

(** C3, as stated, fails: the filter admits a request for PVC against a SKU
    whose material reads pvc, although the two strings differ, the SKU has
    no alternate material and is not a corrugated pipe. *)
Lemma C3_exact_match_counterexample :
  ParsedLineItem.material line_pvc = Some "PVC"%string
  /\ Js.truthy_string "PVC" = true
  /\ Js.truthy_string (SKU.material sku_lowercase_material) = true
  /\ passesHardConstraints (default_engine ∅) line_pvc
       sku_lowercase_material
       (getProductFamily (ParsedLineItem.input_text line_pvc)) = true
  /\ ~ compatible_with (fun s => s) "PVC" sku_lowercase_material.
Proof.
  repeat split; try reflexivity.
  unfold compatible_with. cbn.
  intros [[H | H] | [H _]]; discriminate.
Qed.

(** C3, amended.  When the line and the SKU both carry a material, the
    filter admits the pair only if the materials are compatible once both
    sides are upper-cased: the request equals the material or the alternate
    material of the SKU, or the SKU is a corrugated flexible pipe and
    either the request is FRPP or FR and the SKU has material PP or
    alternate material FRPP, or the request is PP and the SKU has material
    PP.  A request for FR passes against a corrugated pipe of material PP
    (family and size permitting); a request for PVC against such a pipe is
    filtered out. *)
Theorem C3_material_constraint :
  (forall (this : Engine) (line : ParsedLineItem.t) (sku : SKU.t)
          (fam m : string),
      ParsedLineItem.material line = Some m ->
      Js.truthy_string m = true ->
      Js.truthy_string (SKU.material sku) = true ->
      passesHardConstraints this line sku fam = true ->
      compatible_with Js.toUpperCase m sku)
  /\ (forall (this : Engine) (line : ParsedLineItem.t) (sku : SKU.t)
             (fam : string),
        ParsedLineItem.material line = Some "FR"%string ->
        SKU.productFamily sku = CFP ->
        SKU.material sku = "PP"%string ->
        family_ok sku fam = true ->
        size_ok this line sku = true ->
        passesHardConstraints this line sku fam = true)
  /\ (forall (this : Engine) (line : ParsedLineItem.t) (sku : SKU.t)
             (fam : string),
        ParsedLineItem.material line = Some "PVC"%string ->
        SKU.productFamily sku = CFP ->
        SKU.material sku = "PP"%string ->
        option_map Js.toUpperCase (SKU.altMaterial sku)
          <> Some "PVC"%string ->
        passesHardConstraints this line sku fam = false).
Proof.
  split; [|split].
  - intros this line sku fam m Hm Tm Ts Hp.
    rewrite passes_material_ok in Hp.
    apply andb_true_iff in Hp as [_ Hp].
    unfold material_ok in Hp. rewrite Hm, Tm, Ts in Hp.
    now apply isMaterialCompatible_spec.
  - intros this line sku fam Hm Hf Hs Hfam Hsize.
    rewrite passes_material_ok, Hfam, Hsize. cbn [andb].
    unfold material_ok. rewrite Hm, Hs. cbn [Js.truthy_string String.eqb
      Ascii.eqb Bool.eqb negb andb].
    apply isMaterialCompatible_spec. unfold compatible_with.
    rewrite Hs. right. split; [exact Hf|]. left. split; [now right | now left].
  - intros this line sku fam Hm Hf Hs Halt.
    rewrite passes_material_ok.
    assert (material_ok line sku = false) as ->;
      [|now destruct (family_ok sku fam), (size_ok this line sku)].
    unfold material_ok. rewrite Hm, Hs. cbn [Js.truthy_string String.eqb
      Ascii.eqb Bool.eqb negb andb].
    destruct (isMaterialCompatible "PVC" sku) eqn:E; [|reflexivity].
    apply isMaterialCompatible_spec in E. unfold compatible_with in E.
    rewrite Hs in E. cbn in E.
    destruct E as [[E | E] | [_ [[[E | E] _] | [E _]]]];
      try discriminate. contradiction.
Qed.

Lemma C3_material_constraint_witness :
  passesHardConstraints (default_engine ∅) line_fr sku_cfp_pp CFP = true
  /\ compatible_with Js.toUpperCase "FR" sku_cfp_pp.
Proof.
  split; [reflexivity|].
  apply (proj1 C3_material_constraint (default_engine ∅) line_fr sku_cfp_pp
           CFP "FR"); reflexivity.
Defined.

(** ** The material sub-score *)

(** C4, as stated, fails: for this rigid conduit the material match reaches
    1.0 although the gauges are not equal (the line has none), and the
    unequal gauges do not give 0.7. *)
Lemma C4_gauge_counterexample :
  SKU.productFamily sku_pvc_medium = RPC
  /\ material_match line_pvc sku_pvc_medium
  /\ ParsedLineItem.gauge line_pvc <> SKU.gauge sku_pvc_medium
  /\ calculateMaterialScore line_pvc sku_pvc_medium = 1
  /\ ~ calculateMaterialScore line_pvc sku_pvc_medium == 7 # 10.
Proof.
  split; [reflexivity|]. split; [|split; [discriminate|split]].
  - exists "PVC"%string. repeat split.
  - reflexivity.
  - intros H. vm_compute in H. discriminate.
Qed.

(** C4, amended.  The material sub-score is 0.5 when both sides are unset
    and 0.2 when exactly one is.  On a material match it is 1.0 for a SKU
    outside the rigid PVC conduit family.  For a rigid PVC conduit it
    depends on the gauges only when both sides carry one: then equal gauges
    give 1.0 and different gauges 0.7; when either gauge is unset the match
    scores 1.0. *)
Theorem C4_material_score :
  forall (line : ParsedLineItem.t) (sku : SKU.t),
    let s := calculateMaterialScore line sku in
    (line_unset line /\ sku_unset sku -> s = 5 # 10)
    /\ (line_unset line /\ ~ sku_unset sku -> s = 2 # 10)
    /\ (~ line_unset line /\ sku_unset sku -> s = 2 # 10)
    /\ (material_match line sku -> SKU.productFamily sku <> RPC -> s = 1)
    /\ (material_match line sku -> SKU.productFamily sku = RPC ->
        (forall g g' : string,
            ParsedLineItem.gauge line = Some g -> SKU.gauge sku = Some g' ->
            Js.truthy_string g = true -> Js.truthy_string g' = true ->
            (g = g' -> s = 1) /\ (g <> g' -> s = 7 # 10))
        /\ (Js.truthy_str (ParsedLineItem.gauge line) = false
            \/ Js.truthy_str (SKU.gauge sku) = false -> s = 1)).
Proof.
  intros line sku s. subst s.
  unfold line_unset, sku_unset, calculateMaterialScore.
  repeat split.
  - intros [-> ->]. reflexivity.
  - intros [-> H]. destruct (Js.truthy_string (SKU.material sku));
      [reflexivity | congruence].
  - intros [H ->]. destruct (Js.truthy_str (ParsedLineItem.material line));
      [reflexivity | congruence].
  - intros [m [Hm [Tm [Ts E]]]] Hfam. rewrite Hm. cbn [Js.truthy_str].
    rewrite Tm, Ts, E, String.eqb_refl. cbn [negb andb orb].
    destruct (String.eqb_spec (SKU.productFamily sku) RPC);
      [contradiction | reflexivity].
  - destruct H as [m [Hm [Tm [Ts E]]]]. rewrite Hm. cbn [Js.truthy_str].
    rewrite Tm, Ts, E, String.eqb_refl, H0, String.eqb_refl, H1, H2, H3, H4.
    cbn. intros ->. now rewrite String.eqb_refl.
  - destruct H as [m [Hm [Tm [Ts E]]]]. rewrite Hm. cbn [Js.truthy_str].
    rewrite Tm, Ts, E, String.eqb_refl, H0, String.eqb_refl, H1, H2, H3, H4.
    cbn. intros N. destruct (String.eqb_spec g g'); [contradiction|reflexivity].
  - destruct H as [m [Hm [Tm [Ts E]]]]. rewrite Hm. cbn [Js.truthy_str].
    rewrite Tm, Ts, E, String.eqb_refl, H0, String.eqb_refl.
    cbn [negb andb orb]. change (Js.gtb 1 0) with true. cbn iota.
    intros [G | G].
    + destruct (ParsedLineItem.gauge line) as [g|]; [|reflexivity].
      cbn in G. rewrite G. destruct (SKU.gauge sku); reflexivity.
    + destruct (ParsedLineItem.gauge line) as [g|]; [|reflexivity].
      destruct (SKU.gauge sku) as [g'|]; [|reflexivity].
      cbn in G. rewrite G. now rewrite andb_false_r.
Qed.

Lemma C4_material_score_witness :
  material_match line_pvc_heavy sku_pvc_medium
  /\ calculateMaterialScore line_pvc_heavy sku_pvc_medium = 7 # 10.
Proof.
  assert (M : material_match line_pvc_heavy sku_pvc_medium)
    by (exists "PVC"%string; repeat split).
  split; [exact M|].
  destruct (C4_material_score line_pvc_heavy sku_pvc_medium)
    as (_ & _ & _ & _ & H).
  destruct (H M eq_refl) as [G _].
  apply (G "H"%string "M"%string); try reflexivity. discriminate.
Defined.

(** ** The candidate list *)

Lemma pushed_catalog_order (this : Engine) (line : ParsedLineItem.t)
  (fam : string) (skuCatalog : list SKU.t) :
  pushed this line fam skuCatalog
  = map (scoreSKUMatch this line)
        (List.filter (admitted this line fam) skuCatalog).
Proof.
  unfold pushed, admitted.
  induction skuCatalog as [|sku l IH]; [reflexivity|].
  cbn [flat_map List.filter]. rewrite IH.
  destruct (passesHardConstraints this line sku fam); cbn [negb andb];
    [|reflexivity].
  destruct (Js.gtb (score (scoreSKUMatch this line sku)) (1 # 10));
    reflexivity.
Qed.

(** C5. The candidate list is in descending order of score, each entry at
    least as high as the next; it holds the candidates pushed while walking
    the catalog, and candidates of equal score stand in catalog order. *)
Theorem C5_candidates_ranked :
  forall (this : Engine) (line : ParsedLineItem.t) (skuCatalog : list SKU.t),
    let fam := getProductFamily (ParsedLineItem.input_text line) in
    let cs := findCandidates this line skuCatalog in
    (forall (i : nat) (a b : SKUCandidate),
        nth_error cs i = Some a -> nth_error cs (S i) = Some b ->
        score a >= score b)
    /\ Permutation cs
         (map (scoreSKUMatch this line)
              (List.filter (admitted this line fam) skuCatalog))
    /\ (forall q : Q,
          List.filter (has_score q) cs
          = List.filter (has_score q)
              (map (scoreSKUMatch this line)
                   (List.filter (admitted this line fam) skuCatalog))).
Proof.
  intros this line skuCatalog fam cs. subst cs. unfold findCandidates.
  fold fam. rewrite pushed_catalog_order.
  split; [|split].
  - intros i a b Ha Hb. unfold Qge.
    eapply sorted_adjacent; [apply sort_sorted | exact Ha | exact Hb].
  - apply sort_perm.
  - intros q. apply sort_stable.
Qed.

(** ** Scores *)

(** C6. With nonnegative weights, the four sub-scores of a scored candidate
    lie in [0,1], its total is the weighted sum of the sub-scores capped at
    1, and the total lies in [0,1] as well, whatever the weights add up
    to. *)
Theorem C6_scores_in_unit_interval :
  forall (this : Engine) (line : ParsedLineItem.t) (sku : SKU.t),
    0 <= fuzzy_weight (config this) ->
    0 <= size_weight (config this) ->
    0 <= material_weight (config this) ->
    0 <= alias_weight (config this) ->
    let c := scoreSKUMatch this line sku in
    let b := breakdown c in
    unit_interval (fuzzy_score b)
    /\ unit_interval (size_score b)
    /\ unit_interval (material_score b)
    /\ unit_interval (alias_score b)
    /\ score c
       = Qmin (fuzzy_score b * fuzzy_weight (config this)
               + size_score b * size_weight (config this)
               + material_score b * material_weight (config this)
               + alias_score b * alias_weight (config this)) 1
    /\ unit_interval (score c).
Proof.
  intros this line sku Wf Ws Wm Wa c b. subst b c.
  cbn [scoreSKUMatch breakdown score fuzzy_score size_score material_score
       alias_score].
  pose proof (calculateFuzzyScore_unit (ParsedLineItem.input_text line) sku)
    as [F0 F1].
  pose proof (calculateSizeScore_unit this line sku) as [S0 S1].
  pose proof (calculateMaterialScore_unit line sku) as [M0 M1].
  pose proof (calculateAliasScore_unit this
                (ParsedLineItem.input_text line) sku) as [A0 A1].
  unfold unit_interval. repeat split; try assumption.
  - apply Q.min_glb; [|lra].
    pose proof (Qmult_le_0_compat _ _ F0 Wf).
    pose proof (Qmult_le_0_compat _ _ S0 Ws).
    pose proof (Qmult_le_0_compat _ _ M0 Wm).
    pose proof (Qmult_le_0_compat _ _ A0 Wa).
    lra.
  - apply Q.le_min_r.
Qed.

Lemma C6_scores_in_unit_interval_witness :
  unit_interval
    (score (scoreSKUMatch (default_engine seed_aliases) line_25mm_pp
              sku_cfp_pp)).
Proof.
  apply (C6_scores_in_unit_interval (default_engine seed_aliases)
           line_25mm_pp sku_cfp_pp); cbn; lra.
Defined.

(** C9. The candidate list holds exactly the scored SKUs of the catalog
    that pass the hard constraints and whose total score is strictly above
    0.1.  So a catalog can contain an admissible SKU and still yield no
    candidate, and the line is then mapped to [failed]. *)
Theorem C9_low_scores_dropped :
  (forall (this : Engine) (line : ParsedLineItem.t) (skuCatalog : list SKU.t)
          (c : SKUCandidate),
      In c (findCandidates this line skuCatalog) <->
      exists sku : SKU.t,
        In sku skuCatalog
        /\ passesHardConstraints this line sku
             (getProductFamily (ParsedLineItem.input_text line)) = true
        /\ c = scoreSKUMatch this line sku
        /\ 1 # 10 < score c)
  /\ (exists (this : Engine) (line : ParsedLineItem.t)
             (skuCatalog : list SKU.t) (sku : SKU.t),
        In sku skuCatalog
        /\ passesHardConstraints this (normalizeLineItem line) sku
             (getProductFamily (ParsedLineItem.input_text line)) = true
        /\ findCandidates this (normalizeLineItem line) skuCatalog = []
        /\ status (snd (mapLineItem this skuCatalog line)) = failed).
Proof.
  split.
  - intros this line skuCatalog c. unfold findCandidates.
    rewrite pushed_catalog_order.
    set (fam := getProductFamily (ParsedLineItem.input_text line)).
    split.
    + intros Hin.
      apply (Permutation_in _ (sort_perm _)) in Hin.
      apply in_map_iff in Hin as [sku [<- Hin]].
      apply filter_In in Hin as [Hin Hadm].
      unfold admitted in Hadm. apply andb_true_iff in Hadm as [Hp Hs].
      exists sku. repeat split; try assumption. now apply gtb_spec.
    + intros [sku [Hin [Hp [-> Hs]]]].
      apply (Permutation_in _ (Permutation_sym (sort_perm _))).
      apply in_map. apply filter_In. split; [exact Hin|].
      unfold admitted. rewrite Hp. cbn [andb]. now apply gtb_spec.
  - exists (default_engine ∅), line_x, [sku_unrelated], sku_unrelated.
    repeat split; try reflexivity. now left.
Qed.

Lemma C9_low_scores_dropped_witness :
  1 # 10 < score (scoreSKUMatch (default_engine seed_aliases) line_25mm_pp
                    sku_cfp_pp).
Proof.
  destruct (proj1 (proj1 C9_low_scores_dropped
                     (default_engine seed_aliases) line_25mm_pp [sku_cfp_pp]
                     (scoreSKUMatch (default_engine seed_aliases)
                        line_25mm_pp sku_cfp_pp)))
    as [sku [_ [_ [E H]]]].
  - vm_compute. now left.
  - exact H.
Defined.

Lemma C5_candidates_ranked_witness :
  map (fun c => SKU.skuCode (sku c))
      (findCandidates (default_engine seed_aliases) line_25mm_pp
         [sku_cfp_26; sku_cfp_pp])
  = ["NFC25"; "NFC26"]%string
  /\ score (scoreSKUMatch (default_engine seed_aliases) line_25mm_pp
              sku_cfp_pp)
     >= score (scoreSKUMatch (default_engine seed_aliases) line_25mm_pp
                 sku_cfp_26).
Proof.
  split; [reflexivity|].
  apply (proj1 (C5_candidates_ranked (default_engine seed_aliases)
                  line_25mm_pp [sku_cfp_26; sku_cfp_pp]) 0%nat);
    reflexivity.
Defined.

(** ** The normalizer *)

(** C8, as stated, fails: a token no rule recognizes is neither mapped into
    the closed set nor turned into [undefined]; it comes back upper-cased. *)
Lemma C8_unparseable_counterexample :
  normalizeMaterial "brass" = "BRASS"%string
  /\ ~ In (normalizeMaterial "brass") closed_codes
  /\ ParsedLineItem.material (normalizeLineItem line_brass)
     = Some "BRASS"%string.
Proof.
  split; [reflexivity|]. split; [|reflexivity].
  cbn. intros H. repeat destruct H as [H | H]; try discriminate. exact H.
Qed.

Ltac split_includes :=
  repeat (match goal with
          | |- context [Js.includes ?l ?x] =>
              destruct (Js.includes l x) eqn:?
          end;
          cbn [orb andb negb];
          try discriminate;
          try solve [intros; cbn; tauto]).

(** C8, amended.  [normalizeMaterial] is a total function.  When one of its
    substring rules applies, the result is one of the eight codes;
    otherwise the result is the token itself, upper-cased, not
    [undefined].  A token that contains both the FR and the PP marker is
    FRPP.  On a line, a present material token sets the normalized
    material to that result, and an absent one leaves it as it was. *)
Theorem C8_normalizeMaterial :
  (forall material : string,
      (has_marker material = true ->
       In (normalizeMaterial material) closed_codes)
      /\ (has_marker material = false ->
          normalizeMaterial material = Js.toUpperCase material))
  /\ (forall material : string,
        let lower := Js.trim (Js.toLowerCase material) in
        Js.includes lower "fr" = true -> Js.includes lower "pp" = true ->
        normalizeMaterial material = "FRPP"%string)
  /\ (forall (line : ParsedLineItem.t) (tok : string),
        RawTokens.material_token (ParsedLineItem.raw_tokens line) = Some tok ->
        Js.truthy_string tok = true ->
        ParsedLineItem.material (normalizeLineItem line)
        = Some (normalizeMaterial tok))
  /\ (forall line : ParsedLineItem.t,
        Js.truthy_str
          (RawTokens.material_token (ParsedLineItem.raw_tokens line)) = false ->
        ParsedLineItem.material (normalizeLineItem line)
        = ParsedLineItem.material line).
Proof.
  split; [|split; [|split]].
  - intros material. unfold has_marker, normalizeMaterial, markers.
    cbn [existsb]. set (lower := Js.trim (Js.toLowerCase material)).
    split; split_includes.
  - intros material lower Hfr Hpp. unfold normalizeMaterial. fold lower.
    rewrite Hfr, Hpp. now rewrite !orb_true_r.
  - intros line tok Htok Ttok. unfold normalizeLineItem, ParsedLineItem.material.
    cbn [ParsedLineItem.normalized]. rewrite Htok.
    unfold when_token at 2 3 4. rewrite Ttok.
    destruct (RawTokens.color_token _) as [c|], (RawTokens.gauge_token _) as [g|];
      unfold when_token;
      repeat match goal with
             | |- context [Js.truthy_string ?t] =>
                 destruct (Js.truthy_string t)
             end; reflexivity.
  - intros line Habs. unfold normalizeLineItem, ParsedLineItem.material.
    cbn [ParsedLineItem.normalized].
    destruct (ParsedLineItem.normalized line) as [n|],
      (RawTokens.size_token _) as [s|],
      (RawTokens.material_token _) as [m|],
      (RawTokens.color_token _) as [c|],
      (RawTokens.gauge_token _) as [g|]; cbn in Habs |- *;
      try rewrite Habs;
      repeat match goal with
             | |- context [Js.truthy_string ?t] =>
                 destruct (Js.truthy_string t)
             end; reflexivity.
Qed.

Lemma C8_normalizeMaterial_witness :
  normalizeMaterial "FR grade PP" = "FRPP"%string.
Proof.
  apply (proj1 (proj2 C8_normalizeMaterial) "FR grade PP"); reflexivity.
Defined.

(** * Further properties of the engine and of its callers *)

(** ** Case mapping *)

Ltac by_char c :=
  destruct c as [[] [] [] [] [] [] [] []]; reflexivity.



Lemma lower_lower_char (c : ascii) :
  Js.lower_char (Js.lower_char c) = Js.lower_char c.
Proof. by_char c. Qed.



Lemma toLowerCase_idem (s : string) :
  Js.toLowerCase (Js.toLowerCase s) = Js.toLowerCase s.
Proof.
  induction s as [|c s IH]; [reflexivity|].
  cbn [Js.toLowerCase Js.map_chars] in *.
  now rewrite lower_lower_char, IH.
Qed.

(** ** The normalizers *)





(** ** Size extraction *)

Lemma from_first_digit_none (s : string) :
  from_first_digit s = None <-> has_digit s = false.
Proof.
  induction s as [|c s IH]; cbn [from_first_digit has_digit]; [tauto|].
  destruct (Js.is_digit c); cbn [orb]; [split; discriminate | exact IH].
Qed.

Lemma digits_value_nonneg (acc : N) (ds : string) :
  (0 <= Z.of_N (digits_value acc ds))%Z.
Proof. lia. Qed.

Lemma parseFloat_numeral_nonneg (int frac : string) :
  0 <= parseFloat_numeral int frac.
Proof.
  unfold parseFloat_numeral, Qle. cbn [Qnum Qden].
  pose proof (digits_value_nonneg 0 int).
  pose proof (digits_value_nonneg 0 frac).
  assert (0 <= 10 ^ Z.of_nat (String.length frac))%Z by lia.
  nia.
Qed.

(** X3. [extractSizeMm] is undefined exactly on the tokens that contain no
    decimal digit, and a size it extracts is never negative: a sign in
    front of the number is not read. *)
Theorem X3_extractSizeMm_defined :
  forall sizeToken : string,
    (extractSizeMm sizeToken = None <-> has_digit sizeToken = false)
    /\ (forall q : Q, extractSizeMm sizeToken = Some q -> 0 <= q).
Proof.
  intros sizeToken. unfold extractSizeMm, match_size.
  rewrite <- from_first_digit_none.
  destruct (from_first_digit sizeToken) as [s|];
    [|split; [tauto | discriminate]].
  destruct (take_digits s) as [int r1].
  match goal with
  | |- context [let '(frac, r2) := ?e in _] => destruct e as [frac r2]
  end.
  pose proof (parseFloat_numeral_nonneg int frac) as Hv.
  split.
  - destruct (_ || _)%bool; split; discriminate.
  - intros q. destruct (_ || _)%bool; intros [= <-]; [|exact Hv].
    apply Qmult_le_0_compat; [exact Hv | discriminate].
Qed.

Lemma X3_extractSizeMm_defined_witness :
  extractSizeMm "-5 in" = Some (1270 # 10) /\ 0 <= 1270 # 10.
Proof.
  split; [reflexivity|].
  apply (proj2 (X3_extractSizeMm_defined "-5 in") (1270 # 10)). reflexivity.
Defined.

Lemma append_cons (c : ascii) (a b : string) :
  (String c a ++ b)%string = String c (a ++ b).
Proof. reflexivity. Qed.

Lemma append_empty_l (b : string) : (EmptyString ++ b)%string = b.
Proof. reflexivity. Qed.

Lemma append_empty_r (a : string) : (a ++ EmptyString)%string = a.
Proof.
  induction a as [|c a IH]; [reflexivity|]. now rewrite append_cons, IH.
Qed.

Lemma from_first_digit_skip (pre s : string) :
  has_digit pre = false ->
  from_first_digit (pre ++ s) = from_first_digit s.
Proof.
  induction pre as [|c pre IH]; [reflexivity|].
  rewrite append_cons. cbn [has_digit from_first_digit].
  destruct (Js.is_digit c); cbn [orb]; [discriminate | exact IH].
Qed.

Lemma from_first_digit_here (ds rest : string) :
  all_digits ds = true -> ds <> EmptyString ->
  from_first_digit (ds ++ rest) = Some (ds ++ rest)%string.
Proof.
  destruct ds as [|c ds]; [contradiction|].
  rewrite append_cons. cbn [all_digits from_first_digit].
  destruct (Js.is_digit c); [reflexivity | discriminate].
Qed.

Lemma take_digits_app (ds rest : string) :
  all_digits ds = true -> no_digit_ahead rest = true ->
  take_digits (ds ++ rest) = (ds, rest).
Proof.
  intros Hd Hr. induction ds as [|c ds IH].
  - rewrite append_empty_l. destruct rest as [|c r]; [reflexivity|].
    cbn [take_digits no_digit_ahead] in *.
    destruct (Js.is_digit c); [discriminate | reflexivity].
  - rewrite append_cons. cbn [all_digits take_digits] in *.
    destruct (Js.is_digit c); [|discriminate].
    cbn [andb] in Hd. now rewrite (IH Hd).
Qed.

Lemma parseFloat_numeral_int (ds : string) :
  parseFloat_numeral ds EmptyString == decimal ds.
Proof.
  unfold parseFloat_numeral, decimal, Qeq. cbn. lia.
Qed.

(** What [extractSizeMm] returns on a numeral without a fraction, in terms
    of what follows the numeral. *)
Lemma extractSizeMm_integer (pre ds rest : string) :
  has_digit pre = false ->
  all_digits ds = true -> ds <> EmptyString ->
  no_digit_ahead rest = true ->
  String.prefix "." rest = false ->
  size_is (extractSizeMm (pre ++ ds ++ rest))
    (match match_unit (Js.trimStart rest) with
     | Some u =>
         if (String.eqb u "mm") then decimal ds else decimal ds * (254 # 10)
     | None => decimal ds
     end).
Proof.
  intros Hpre Hds Hne Hrest Hdot.
  unfold extractSizeMm, match_size.
  rewrite (from_first_digit_skip _ _ Hpre), (from_first_digit_here _ _ Hds Hne),
    (take_digits_app _ _ Hds Hrest).
  assert (E : match rest with
              | String "." r =>
                  let (fr, r') := take_digits r in
                  if String.eqb fr EmptyString then (EmptyString, rest)
                  else (fr, r')
              | _ => (EmptyString, rest)
              end = (EmptyString, rest)).
  { destruct rest as [|c r]; [reflexivity|].
    cbn [String.prefix] in Hdot.
    destruct (Ascii.eqb_spec "." c) as [<- | N];
      [destruct r; discriminate|].
    destruct c as [[] [] [] [] [] [] [] []]; try reflexivity.
    now contradiction N. }
  rewrite E. clear E.
  pose proof (parseFloat_numeral_int ds) as Hv.
  unfold match_unit.
  repeat match goal with
         | |- context [String.prefix ?a ?b] => destruct (String.prefix a b)
         end; cbn; eexists; (split; [reflexivity|]); rewrite Hv; reflexivity.
Qed.

(** X4. A number with no unit, or followed by [mm], is taken as
    millimetres; followed by [inch] it is multiplied by 25.4; a unit the
    pattern does not know, such as [cm], is ignored and the number is taken
    as millimetres.  Text without digits in front of the number is
    skipped. *)
Theorem X4_extractSizeMm_units :
  forall pre ds : string,
    has_digit pre = false ->
    all_digits ds = true -> ds <> EmptyString ->
    size_is (extractSizeMm (pre ++ ds)) (decimal ds)
    /\ size_is (extractSizeMm (pre ++ ds ++ "mm")) (decimal ds)
    /\ size_is (extractSizeMm (pre ++ ds ++ " inch")) (decimal ds * (254 # 10))
    /\ size_is (extractSizeMm (pre ++ ds ++ "cm")) (decimal ds).
Proof.
  intros pre ds Hpre Hds Hne.
  repeat split.
  - rewrite <- (append_empty_r ds) at 1.
    now apply (extractSizeMm_integer pre ds "").
  - now apply (extractSizeMm_integer pre ds "mm").
  - now apply (extractSizeMm_integer pre ds " inch").
  - now apply (extractSizeMm_integer pre ds "cm").
Qed.

Lemma X4_extractSizeMm_units_witness :
  size_is (extractSizeMm "dia 2 inch") (decimal "2" * (254 # 10)).
Proof.
  apply (X4_extractSizeMm_units "dia " "2"); [reflexivity | reflexivity |].
  discriminate.
Defined.

(** ** The alias table *)

Lemma add_alias_lookup (parseFloat : string -> option Q)
  (table : gmap string (list AliasEntry)) (row : SkuAliasRow.t)
  (code : string) :
  add_alias parseFloat table row !! code
  = if String.eqb (SkuAliasRow.sku_code row) code
    then Some (match table !! code with Some l => l | None => [] end
               ++ [entry_of parseFloat row])%list
    else table !! code.
Proof.
  unfold add_alias.
  destruct (String.eqb_spec (SkuAliasRow.sku_code row) code) as [-> | N].
  - destruct (table !! code) as [l|] eqn:E.
    + rewrite E. now rewrite lookup_insert_eq.
    + rewrite lookup_insert_eq. now rewrite lookup_insert_eq.
  - destruct (table !! SkuAliasRow.sku_code row) as [l|] eqn:E.
    + rewrite E. now rewrite lookup_insert_ne.
    + rewrite lookup_insert_eq. now rewrite !lookup_insert_ne.
Qed.

Lemma load_lookup (parseFloat : string -> option Q) (code : string)
  (aliasData : list SkuAliasRow.t) :
  forall table : gmap string (list AliasEntry),
    fold_left (add_alias parseFloat) aliasData table !! code
    = match table !! code with
      | Some l => Some (l ++ rows_of parseFloat code aliasData)%list
      | None => some_if_nonempty (rows_of parseFloat code aliasData)
      end.
Proof.
  unfold rows_of.
  induction aliasData as [|row rows IH]; intros table.
  - cbn. destruct (table !! code); [now rewrite app_nil_r | reflexivity].
  - cbn [fold_left List.filter]. rewrite IH, add_alias_lookup.
    destruct (String.eqb (SkuAliasRow.sku_code row) code).
    + cbn [map]. destruct (table !! code) as [l|].
      * now rewrite <- app_assoc.
      * reflexivity.
    + reflexivity.
Qed.

(** X5. After the alias file is loaded, looking a SKU code up gives its
    rows in file order, with lower-cased alias and parsed boost, and gives
    nothing for a code that no row names.  No loaded boost is zero: a boost
    that does not parse, or parses to zero, becomes 0.3. *)
Theorem X5_alias_table_lookup :
  forall (parseFloat : string -> option Q) (aliasData : list SkuAliasRow.t)
         (code : string),
    let table := initializeAliases parseFloat (Some aliasData) in
    table !! code = some_if_nonempty (rows_of parseFloat code aliasData)
    /\ (forall entries, table !! code = Some entries ->
          List.Forall (fun e => ~ boost e == 0
                                /\ Js.toLowerCase (alias e) = alias e)
                      entries).
Proof.
  intros parseFloat aliasData code table. subst table.
  unfold initializeAliases. rewrite load_lookup, lookup_empty.
  split; [reflexivity|].
  intros entries H.
  assert (E : entries = rows_of parseFloat code aliasData).
  { destruct (rows_of parseFloat code aliasData); cbn in H;
      [discriminate | now injection H as <-]. }
  rewrite E. unfold rows_of. apply List.Forall_forall.
  intros e He. apply in_map_iff in He as [row [<- _]].
  split.
  - cbn. unfold boost_of.
    destruct (parseFloat (SkuAliasRow.score_boost row)) as [q|];
      [|discriminate].
    unfold Js.truthy_q. destruct (Qeq_bool q 0) eqn:Q0; cbn [negb];
      [discriminate|].
    intros Hq. apply Qeq_bool_iff in Hq. congruence.
  - cbn. apply toLowerCase_idem.
Qed.

Lemma X5_alias_table_lookup_witness :
  List.Forall (fun e => ~ boost e == 0 /\ Js.toLowerCase (alias e) = alias e)
    [ {| alias := "fan box"; boost := 3 # 10 |} ].
Proof.
  apply (proj2 (X5_alias_table_lookup (fun _ => None)
                  [SkuAliasRow.mk "Fan Box" "GFB3OCT" "high"] "GFB3OCT")).
  reflexivity.
Defined.

(** ** The alias sub-score *)

Lemma wordMatches_le (aliasWords inputWords : list string) :
  (wordMatches aliasWords inputWords <= List.length aliasWords)%nat.
Proof.
  unfold wordMatches. induction aliasWords as [|w l IH]; cbn [List.filter];
    [cbn; lia|].
  destruct (existsb _ inputWords); cbn [List.length]; lia.
Qed.

Lemma scaled_le (r b B : Q) : 0 <= r <= 1 -> 0 <= B -> b <= B -> r * b <= B.
Proof.
  intros [R0 R1] HB Hb.
  destruct (Qlt_le_dec b 0) as [Neg | Pos]; nra.
Qed.

Lemma alias_step_le (inputLower : string) (m B : Q) (e : AliasEntry) :
  0 <= B -> m <= B -> boost e <= B -> alias_step inputLower m e <= B.
Proof.
  intros HB Hm He. unfold alias_step.
  set (aw := Js.split_ws (alias e)).
  set (n := wordMatches aw (Js.split_ws inputLower)).
  assert (M1 : (if Nat.ltb 0 n
                then Qmax m (of_nat n / of_nat (List.length aw) * boost e)
                else m) <= B).
  { destruct (Nat.ltb_spec 0 n) as [Hn | _]; [|exact Hm].
    apply Q.max_lub; [exact Hm|].
    apply scaled_le; [|exact HB | exact He].
    pose proof (wordMatches_le aw (Js.split_ws inputLower)).
    apply ratio_unit; fold n; lia. }
  destruct (_ || _)%bool; [|exact M1].
  apply Q.max_lub; [exact M1|].
  rewrite Qmult_comm. apply scaled_le; [lra | exact HB | exact He].
Qed.

Lemma alias_fold_le (inputLower : string) (B : Q) (l : list AliasEntry) :
  0 <= B -> List.Forall (fun e => boost e <= B) l ->
  forall m : Q, m <= B -> fold_left (alias_step inputLower) l m <= B.
Proof.
  intros HB Hl. induction Hl as [|e l He Hl IH]; intros m Hm; cbn [fold_left];
    [exact Hm|].
  apply IH. now apply alias_step_le.
Qed.

Lemma calculateAliasScore_le (this : Engine) (input : string) (sku : SKU.t)
  (B : Q) :
  0 <= B -> boosts_le B (aliases this) ->
  calculateAliasScore this input sku <= B.
Proof.
  intros HB Hb. unfold calculateAliasScore.
  destruct (aliases this !! SKU.skuCode sku) as [l|] eqn:E; [|exact HB].
  eapply Qle_trans; [apply Q.le_min_l|].
  apply alias_fold_le; [exact HB | exact (Hb _ _ E) | exact HB].
Qed.

Lemma no_alias_reason (this : Engine) (line : ParsedLineItem.t) (sku : SKU.t) :
  calculateAliasScore this (ParsedLineItem.input_text line) sku <= 5 # 10 ->
  let c := scoreSKUMatch this line sku in
  ~ In AliasMatchDetected (reasons c)
  /\ ~ In "aliases"%string (getMatchedFields c).
Proof.
  intros H c. subst c. apply gtb_false in H.
  unfold getMatchedFields.
  cbn [scoreSKUMatch reasons breakdown alias_score fuzzy_score size_score
       material_score].
  rewrite H. split; intros Hin;
    repeat (apply in_app_or in Hin as [Hin | Hin]);
    repeat match type of Hin with
           | context [if ?b then _ else _] => destruct b
           end;
    cbn in Hin; intuition discriminate.
Qed.

(** X6. When no boost of the alias table exceeds a bound [B], neither does
    the alias sub-score of any candidate.  With [B] at most 0.5 no
    candidate ever gets the alias reason, nor [aliases] among its matched
    fields. *)
Theorem X6_alias_score_bounded_by_boost :
  forall (this : Engine) (line : ParsedLineItem.t) (sku : SKU.t) (B : Q),
    0 <= B -> boosts_le B (aliases this) ->
    let c := scoreSKUMatch this line sku in
    alias_score (breakdown c) <= B
    /\ (B <= 5 # 10 ->
        ~ In AliasMatchDetected (reasons c)
        /\ ~ In "aliases"%string (getMatchedFields c)).
Proof.
  intros this line sku B HB Hb c.
  pose proof (calculateAliasScore_le this (ParsedLineItem.input_text line)
                sku B HB Hb) as Hs.
  split; [exact Hs|].
  intros HB'. apply no_alias_reason. lra.
Qed.

Lemma seed_aliases_boosts : boosts_le (3 # 10) seed_aliases.
Proof.
  intros code entries H. unfold seed_aliases in H.
  apply lookup_insert_Some in H as [[_ <-] | [_ H]].
  - repeat constructor; cbn; lra.
  - rewrite lookup_empty in H. discriminate.
Qed.

Lemma X6_alias_score_bounded_by_boost_witness :
  alias_score (breakdown (scoreSKUMatch (default_engine seed_aliases)
                            line_25mm_pp sku_cfp_pp)) <= 3 # 10.
Proof.
  apply (X6_alias_score_bounded_by_boost (default_engine seed_aliases)
           line_25mm_pp sku_cfp_pp (3 # 10)).
  - lra.
  - exact seed_aliases_boosts.
Defined.

Lemma fallback_boosts (table : gmap string (list AliasEntry)) (B : Q) :
  3 # 10 <= B -> boosts_le B table ->
  boosts_le B (initializeFallbackAliases table).
Proof.
  intros HB Ht code entries H. unfold initializeFallbackAliases in H.
  cbn [fold_left fallbackAliases fst snd] in H.
  repeat (apply lookup_insert_Some in H as [[_ <-] | [_ H]];
          [repeat constructor; exact HB|]).
  exact (Ht _ _ H).
Qed.

(** X7. A service that fell back to the built-in aliases gives every
    candidate an alias sub-score of at most 0.3, never the alias reason,
    and a sub-score of 0 to every SKU other than the four of the built-in
    table. *)
Theorem X7_fallback_aliases :
  forall (parseFloat : string -> option Q) (cfg : MappingConfig)
         (line : ParsedLineItem.t) (sku : SKU.t),
    let this := {| config := cfg;
                   aliases := initializeAliases parseFloat None |} in
    let c := scoreSKUMatch this line sku in
    alias_score (breakdown c) <= 3 # 10
    /\ ~ In AliasMatchDetected (reasons c)
    /\ (~ In (SKU.skuCode sku) ["NFC25"; "NFC32"; "PVC25M"; "GFB3OCT"]%string ->
        alias_score (breakdown c) = 0).
Proof.
  intros parseFloat cfg line sku this c.
  assert (Hb : boosts_le (3 # 10) (aliases this)).
  { apply fallback_boosts; [lra|].
    intros code entries H. rewrite lookup_empty in H. discriminate. }
  pose proof (calculateAliasScore_le this (ParsedLineItem.input_text line)
                sku (3 # 10) ltac:(lra) Hb) as Hs.
  split; [exact Hs|]. split.
  - apply no_alias_reason. lra.
  - intros Hn. subst c.
    cbn [scoreSKUMatch breakdown alias_score]. unfold calculateAliasScore.
    assert (E : aliases this !! SKU.skuCode sku = None); [|now rewrite E].
    subst this. cbn [aliases initializeAliases].
    unfold initializeFallbackAliases.
    cbn [fold_left fallbackAliases fst snd].
    rewrite !lookup_insert_ne; [apply lookup_empty | | | |];
      intros E; apply Hn; rewrite <- E; cbn; tauto.
Qed.

(** ** The fuzzy sub-score *)

Module levenshtein_diagonal.
Import levenshtein.

Lemma next_row_full_length (x : ascii) (b : list ascii) :
  forall (prev : list nat) (left : nat),
    List.length prev = S (List.length b) ->
    List.length (next_row x b prev left) = List.length b.
Proof.
  induction b as [|y b IH]; intros prev left Hlen; [reflexivity|].
  destruct prev as [|diag [|up prev']]; try discriminate.
  cbn [next_row List.length]. f_equal. apply IH.
  cbn [List.length] in Hlen |- *. lia.
Qed.

(** Where row [i] has a zero on the diagonal and the characters agree, so
    has row [i+1]. *)
Lemma next_row_diag (x : ascii) (b2 : list ascii) (b1 : list ascii) :
  forall (prev : list nat) (left : nat),
    List.length prev = S (List.length (b1 ++ x :: b2)) ->
    nth (List.length b1) prev 1%nat = 0%nat ->
    nth (List.length b1) (next_row x (b1 ++ x :: b2) prev left) 1%nat = 0%nat.
Proof.
  induction b1 as [|y b1 IH]; intros prev left Hlen Hz;
    destruct prev as [|diag [|up prev']]; try discriminate.
  - cbn [List.length nth] in Hz. subst diag.
    cbn [app next_row List.length nth].
    rewrite Ascii.eqb_refl. lia.
  - cbn [app next_row List.length nth] in *.
    apply IH; [cbn [List.length]; lia | exact Hz].
Qed.

Lemma step_diag (x : ascii) (a1 a2 : list ascii) (row : list nat) :
  List.length row = S (List.length (a1 ++ x :: a2)) ->
  nth (List.length a1) row 1%nat = 0%nat ->
  let row' := step (a1 ++ x :: a2) row x in
  List.length row' = S (List.length (a1 ++ x :: a2))
  /\ nth (S (List.length a1)) row' 1%nat = 0%nat.
Proof.
  intros Hlen Hz row'. subst row'. unfold step.
  destruct row as [|d row0]; [discriminate|].
  split.
  - cbn [List.length]. f_equal. now apply next_row_full_length.
  - cbn [nth]. now apply next_row_diag.
Qed.

Lemma rows_diag (a2 : list ascii) :
  forall (a1 : list ascii) (row : list nat),
    List.length row = S (List.length (a1 ++ a2)) ->
    nth (List.length a1) row 1%nat = 0%nat ->
    let final := fold_left (step (a1 ++ a2)) a2 row in
    List.length final = S (List.length (a1 ++ a2))
    /\ nth (List.length (a1 ++ a2)) final 1%nat = 0%nat.
Proof.
  induction a2 as [|x a2 IH]; intros a1 row Hlen Hz.
  - cbn [fold_left]. rewrite app_nil_r in *. split; assumption.
  - cbn [fold_left].
    destruct (step_diag x a1 a2 row Hlen Hz) as [Hlen' Hz'].
    specialize (IH (a1 ++ [x])%list (step (a1 ++ x :: a2) row x)).
    rewrite <- app_assoc in IH. cbn [app] in IH.
    apply IH; [exact Hlen'|].
    rewrite length_app. cbn [List.length].
    now rewrite Nat.add_1_r.
Qed.

Lemma last_is_nth (l : list nat) :
  forall n d, List.length l = S n -> List.last l d = nth n l 1%nat.
Proof.
  induction l as [|x l IH]; intros n d Hlen; [discriminate|].
  destruct l as [|y l'].
  - cbn in Hlen. injection Hlen as <-. reflexivity.
  - destruct n as [|n]; [discriminate|].
    change (List.last (x :: y :: l') d) with (List.last (y :: l') d).
    cbn [nth]. apply IH. cbn [List.length] in *. lia.
Qed.

Lemma dist_same (a : list ascii) : dist a a = 0%nat.
Proof.
  unfold dist.
  destruct (rows_diag a [] (List.seq 0 (S (List.length a)))) as [Hlen Hz].
  - now rewrite length_seq.
  - reflexivity.
  - cbn [app] in Hlen, Hz. now rewrite (last_is_nth _ _ _ Hlen).
Qed.

End levenshtein_diagonal.

Lemma length_map_chars (f : ascii -> ascii) (s : string) :
  String.length (Js.map_chars f s) = String.length s.
Proof. induction s as [|c s IH]; cbn; [reflexivity | now rewrite IH]. Qed.

(** X8. A request whose text equals the description of the SKU up to case
    has fuzzy sub-score 1, unless both are empty: then the sub-score
    is 0. *)
Theorem X8_fuzzy_score_equal_text :
  forall (input : string) (sku : SKU.t),
    Js.toLowerCase input = Js.toLowerCase (SKU.description sku) ->
    (input <> EmptyString -> calculateFuzzyScore input sku == 1)
    /\ (input = EmptyString -> calculateFuzzyScore input sku = 0).
Proof.
  intros input sku E. unfold calculateFuzzyScore. rewrite <- E.
  unfold levenshtein.get. rewrite levenshtein_diagonal.dist_same.
  rewrite Nat.max_id. unfold Js.toLowerCase. rewrite length_map_chars.
  split.
  - intros Hne. destruct input as [|c s]; [contradiction|].
    cbn [String.length Nat.ltb Nat.leb]. unfold of_nat at 1.
    cbn [Z.of_nat inject_Z]. unfold Qdiv. rewrite Qmult_0_l. reflexivity.
  - intros ->. reflexivity.
Qed.

Lemma X8_fuzzy_score_equal_text_witness :
  calculateFuzzyScore "CORRUGATED FLEXIBLE PIPE 25MM" sku_cfp_pp == 1.
Proof.
  apply (proj1 (X8_fuzzy_score_equal_text "CORRUGATED FLEXIBLE PIPE 25MM"
                  sku_cfp_pp eq_refl)).
  discriminate.
Defined.

(** ** The filter and the scorer together *)

Lemma passes_true (this : Engine) (line : ParsedLineItem.t) (sku : SKU.t)
  (fam : string) :
  passesHardConstraints this line sku fam = true <->
  family_ok sku fam = true /\ size_ok this line sku = true
  /\ material_ok line sku = true.
Proof.
  rewrite passes_material_ok, !andb_true_iff. tauto.
Qed.

(** X9. For a pair the hard-constraint filter admits, with a size on both
    sides, the size sub-score is 1.0 whenever the tolerance the filter used
    does not exceed the configured one, in particular whenever the SKU
    declares no tolerance of its own.  The lower tiers of the sub-score can
    only be reached through a SKU tolerance wider than the configured
    one. *)
Theorem X9_admitted_size_scores_one :
  forall (this : Engine) (line : ParsedLineItem.t) (sku : SKU.t)
         (fam : string) (inputSize skuSize : Q),
    ParsedLineItem.size_mm line = Some inputSize ->
    SKU.sizeOdMm sku = Some skuSize ->
    ~ inputSize == 0 -> ~ skuSize == 0 ->
    num_or (SKU.toleranceMm sku) (size_tolerance_mm (config this))
      <= size_tolerance_mm (config this) ->
    passesHardConstraints this line sku fam = true ->
    calculateSizeScore this line sku = 1.
Proof.
  intros this line sku fam inputSize skuSize Hl Hs Hi Hk Htol Hp.
  apply passes_true in Hp as (_ & Hsize & _).
  unfold size_ok in Hsize. unfold calculateSizeScore.
  rewrite Hl, Hs in *. unfold Js.truthy_q in *.
  destruct (Qeq_bool inputSize 0) eqn:Ei;
    [apply Qeq_bool_iff in Ei; contradiction|].
  destruct (Qeq_bool skuSize 0) eqn:Ek;
    [apply Qeq_bool_iff in Ek; contradiction|].
  cbn [negb andb orb] in *.
  apply negb_true_iff, gtb_false in Hsize.
  assert (L : Js.leb (Qabs (inputSize - skuSize))
                (size_tolerance_mm (config this)) = true)
    by (apply leb_spec; lra).
  now rewrite L.
Qed.

Lemma X9_admitted_size_scores_one_witness :
  calculateSizeScore (default_engine ∅) line_25mm_pp sku_cfp_26 = 1.
Proof.
  apply (X9_admitted_size_scores_one (default_engine ∅) line_25mm_pp
           sku_cfp_26 CFP 25 26); try reflexivity; try discriminate.
Defined.

(** X10. For a candidate built by [scoreSKUMatch], the matched fields and
    the reasons tell the same story: a field is listed exactly when a
    reason of its kind is, and the two lists have the same length. *)
Theorem X10_reasons_match_fields :
  forall (this : Engine) (line : ParsedLineItem.t) (sku : SKU.t),
    let c := scoreSKUMatch this line sku in
    let fields := getMatchedFields c in
    (In "description"%string fields <->
       In (DescriptionSimilarity (fuzzy_score (breakdown c))) (reasons c))
    /\ (In "size"%string fields <->
          In SizeWithinTolerance (reasons c) \/ In PartialSizeMatch (reasons c))
    /\ (In "material"%string fields <->
          In ExactMaterialMatch (reasons c) \/ In MaterialSimilarity (reasons c))
    /\ (In "aliases"%string fields <-> In AliasMatchDetected (reasons c))
    /\ List.length fields = List.length (reasons c).
Proof.
  intros this line sku c fields. subst fields c.
  unfold getMatchedFields.
  cbn [scoreSKUMatch reasons breakdown alias_score fuzzy_score size_score
       material_score].
  set (f := calculateFuzzyScore _ _).
  set (s := calculateSizeScore _ _ _).
  set (m := calculateMaterialScore _ _).
  set (a := calculateAliasScore _ _ _).
  destruct (Js.gtb f (5 # 10)) eqn:Ef;
    destruct (Js.gtb s (8 # 10)) eqn:Es8;
    destruct (Js.gtb s (5 # 10)) eqn:Es5;
    destruct (Js.gtb m (9 # 10)) eqn:Em9;
    destruct (Js.gtb m (5 # 10)) eqn:Em5;
    destruct (Js.gtb a (5 # 10)) eqn:Ea;
    try (apply gtb_spec in Es8; apply gtb_false in Es5; exfalso; lra);
    try (apply gtb_spec in Em9; apply gtb_false in Em5; exfalso; lra);
    cbn; repeat split; try reflexivity; intros H;
    intuition (try discriminate; try congruence).
Qed.

(** ** Decisions *)

Lemma findCandidates_In (this : Engine) (line : ParsedLineItem.t)
  (skuCatalog : list SKU.t) (c : SKUCandidate) :
  In c (findCandidates this line skuCatalog) <->
  exists sku : SKU.t,
    In sku skuCatalog
    /\ admitted this line (getProductFamily (ParsedLineItem.input_text line))
         sku = true
    /\ c = scoreSKUMatch this line sku.
Proof.
  unfold findCandidates. rewrite pushed_catalog_order. split.
  - intros Hin. apply (Permutation_in _ (sort_perm _)) in Hin.
    apply in_map_iff in Hin as [sku [<- Hin]].
    apply filter_In in Hin as [Hin Hadm]. now exists sku.
  - intros [sku [Hin [Hadm ->]]].
    apply (Permutation_in _ (Permutation_sym (sort_perm _))).
    apply in_map. now apply filter_In.
Qed.

Lemma findCandidates_sorted (this : Engine) (line : ParsedLineItem.t)
  (skuCatalog : list SKU.t) :
  StronglySorted desc (findCandidates this line skuCatalog).
Proof. apply sort_sorted. Qed.

Lemma findCandidates_score (this : Engine) (line : ParsedLineItem.t)
  (skuCatalog : list SKU.t) (c : SKUCandidate) :
  In c (findCandidates this line skuCatalog) -> 1 # 10 < score c.
Proof.
  intros Hin. apply findCandidates_In in Hin as [sku [_ [Hadm ->]]].
  unfold admitted in Hadm. apply andb_true_iff in Hadm as [_ Hs].
  now apply gtb_spec.
Qed.

Lemma status_auto_iff (this : Engine) (top : SKUCandidate)
  (rest : list SKUCandidate) (line : ParsedLineItem.t) :
  status (decideMappingResult this (top :: rest) line) = auto_mapped <->
  needsReview this top (head rest) = false.
Proof.
  cbn [decideMappingResult status].
  destruct (needsReview this top (head rest)); split; congruence.
Qed.

(** X11. The explanation agrees with the status in these respects: an
    auto-mapped result has confidence [high] and no review flag in its
    explanation; a failed result has confidence [low] and the review flag.
    Conversely confidence [high] means auto-mapped as long as no candidate
    has score zero, which holds for every list [findCandidates]
    produces. *)
Theorem X11_explanation_agrees_with_status :
  forall (this : Engine) (cands : list SKUCandidate) (line : ParsedLineItem.t),
    let r := decideMappingResult this cands line in
    let e := explanation r in
    (status r = auto_mapped ->
       Explanation.confidence e = high /\ Explanation.needs_review e = false)
    /\ (status r = failed ->
          Explanation.confidence e = low /\ Explanation.needs_review e = true)
    /\ (List.Forall (fun c => ~ score c == 0) cands ->
        Explanation.confidence e = high -> status r = auto_mapped)
    /\ (forall skuCatalog : list SKU.t,
          cands = findCandidates this line skuCatalog ->
          (Explanation.confidence e = high <-> status r = auto_mapped)).
Proof.
  intros this cands line r e.
  assert (Hauto : status r = auto_mapped ->
            Explanation.confidence e = high
            /\ Explanation.needs_review e = false).
  { subst e r. destruct cands as [|top rest]; [discriminate|].
    rewrite status_auto_iff. intros Hr.
    cbn [decideMappingResult explanation createExplanation
         Explanation.confidence Explanation.needs_review head orb].
    unfold needsReview in Hr. apply orb_false_iff in Hr as [Ht Hs].
    rewrite Ht. split; [|reflexivity].
    unfold calculateConfidence. unfold Js.ltb in Ht, Hs.
    apply negb_false_iff in Ht. unfold Js.geb. rewrite Ht. cbn [andb].
    destruct (head rest) as [second|]; cbn [option_map Js.truthy_num negb orb];
      [|reflexivity].
    apply negb_false_iff in Hs. rewrite Hs. now rewrite orb_true_r. }
  assert (Hhigh : List.Forall (fun c => ~ score c == 0) cands ->
            Explanation.confidence e = high -> status r = auto_mapped).
  { subst e r. intros Hnz. destruct cands as [|top rest]; [discriminate|].
    rewrite status_auto_iff.
    cbn [decideMappingResult explanation createExplanation
         Explanation.confidence].
    unfold calculateConfidence, needsReview, Js.ltb, Js.geb.
    destruct (Qle_bool (auto_map_threshold (config this)) (score top));
      cbn [andb negb orb];
      [|destruct (Qle_bool (6 # 10) (score top)); discriminate].
    destruct rest as [|second rest']; [reflexivity|].
    cbn [head option_map Js.truthy_num].
    apply Forall_inv_tail, Forall_inv in Hnz.
    unfold Js.truthy_q. destruct (Qeq_bool (score second) 0) eqn:Z;
      [apply Qeq_bool_iff in Z; contradiction|].
    cbn [negb orb].
    destruct (Qle_bool (confidence_delta (config this))
                (score top - score second)); [reflexivity|].
    destruct (Qle_bool (6 # 10) (score top)); discriminate. }
  split; [exact Hauto|]. split; [|split; [exact Hhigh|]].
  - subst e r. destruct cands as [|top rest]; [now split|].
    cbn [decideMappingResult status].
    destruct (needsReview this top (head rest)); discriminate.
  - intros skuCatalog E. split; [|apply Hauto].
    apply Hhigh. rewrite E. apply List.Forall_forall. intros c Hin Hz.
    apply findCandidates_score in Hin. lra.
Qed.

Lemma X11_explanation_agrees_with_status_witness :
  status (decideMappingResult (default_engine ∅)
            [cand_of sku_cfp_pp (9 # 10); cand_of sku_cfp_26 (5 # 10)]
            line_25mm_pp) = auto_mapped.
Proof.
  apply (proj1 (proj2 (proj2 (X11_explanation_agrees_with_status
           (default_engine ∅)
           [cand_of sku_cfp_pp (9 # 10); cand_of sku_cfp_26 (5 # 10)]
           line_25mm_pp)))).
  - repeat constructor; intros H; vm_compute in H; discriminate H.
  - vm_compute. reflexivity.
Defined.

Lemma firstn_In (A : Type) (n : nat) (l : list A) (x : A) :
  In x (firstn n l) -> In x l.
Proof.
  revert l. induction n as [|n IH]; intros [|y l] H; cbn in H |- *;
    try contradiction.
  destruct H as [H | H]; [now left | right; now apply IH].
Qed.

Lemma firstn_sorted (n : nat) (l : list SKUCandidate) :
  StronglySorted desc l -> StronglySorted desc (firstn n l).
Proof.
  intros Hs. revert n. induction Hs as [|x l Hl IH Hx]; intros [|n];
    cbn [firstn]; try constructor.
  - apply IH.
  - apply List.Forall_forall. intros y Hy.
    rewrite List.Forall_forall in Hx. apply Hx. now apply firstn_In in Hy.
Qed.

Lemma decide_candidates (this : Engine) (cands : list SKUCandidate)
  (line : ParsedLineItem.t) :
  candidates (decideMappingResult this cands line)
  = map summarize (firstn 3 cands).
Proof. destruct cands; reflexivity. Qed.

(** X12. The candidates a mapped line reports are at most three, ranked by
    descending score; each has a score above 0.1 and at most 1, and each
    carries the code of a catalog SKU that passes the hard constraints for
    the normalized line. *)
Theorem X12_reported_candidates :
  forall (this : Engine) (skuCatalog : list SKU.t) (line : ParsedLineItem.t),
    let nline := normalizeLineItem line in
    let fam := getProductFamily (ParsedLineItem.input_text nline) in
    let reported := candidates (snd (mapLineItem this skuCatalog line)) in
    (List.length reported <= 3)%nat
    /\ StronglySorted (fun a b => summary_score b <= summary_score a) reported
    /\ List.Forall
         (fun s =>
            1 # 10 < summary_score s <= 1
            /\ exists sku : SKU.t,
                 In sku skuCatalog /\ SKU.skuCode sku = sku_code s
                 /\ passesHardConstraints this nline sku fam = true)
         reported.
Proof.
  intros this skuCatalog line nline fam reported. subst reported.
  cbn [mapLineItem snd]. fold nline. rewrite decide_candidates.
  set (found := findCandidates this nline skuCatalog).
  split; [|split].
  - rewrite length_map, length_firstn. lia.
  - pose proof (firstn_sorted 3 found (findCandidates_sorted _ _ _)) as Hs.
    induction Hs as [|x l Hl IH Hx]; cbn [map]; constructor;
      [exact IH|].
    apply List.Forall_forall. intros y Hy.
    apply in_map_iff in Hy as [c [<- Hc]].
    rewrite List.Forall_forall in Hx. exact (Hx c Hc).
  - apply List.Forall_forall. intros s Hs.
    apply in_map_iff in Hs as [c [<- Hc]]. apply firstn_In in Hc.
    pose proof (findCandidates_score _ _ _ _ Hc) as Hlow.
    apply findCandidates_In in Hc as [sku [Hin [Hadm ->]]].
    cbn [summarize summary_score sku_code] in *.
    split; [split; [exact Hlow | apply Q.le_min_r]|].
    exists sku. repeat split; try assumption.
    unfold admitted in Hadm. now apply andb_true_iff in Hadm as [Hp _].
Qed.

(** X13. A line is auto-mapped only to the best candidate of the catalog:
    the selected SKU heads the candidate list, its score reaches
    [auto_map_threshold], and, for a nonnegative [confidence_delta], it
    beats every other candidate, not only the second, by at least
    [confidence_delta]. *)
Theorem X13_auto_mapped_is_clear_winner :
  forall (this : Engine) (skuCatalog : list SKU.t) (line : ParsedLineItem.t),
    0 <= confidence_delta (config this) ->
    let nline := normalizeLineItem line in
    let r := snd (mapLineItem this skuCatalog line) in
    status r = auto_mapped ->
    exists (top : SKUCandidate) (rest : list SKUCandidate),
      findCandidates this nline skuCatalog = top :: rest
      /\ selected_sku r = Some (SKU.skuCode (sku top))
      /\ In (sku top) skuCatalog
      /\ auto_map_threshold (config this) <= score top
      /\ List.Forall
           (fun c => score c + confidence_delta (config this) <= score top)
           rest.
Proof.
  intros this skuCatalog line Hdelta nline r. subst r.
  cbn [mapLineItem snd]. fold nline.
  pose proof (findCandidates_sorted this nline skuCatalog) as Hs.
  pose proof (findCandidates_In this nline skuCatalog) as Hin.
  destruct (findCandidates this nline skuCatalog) as [|top rest];
    [discriminate|].
  intros Hauto. pose proof Hauto as Hr. apply status_auto_iff in Hr.
  exists top, rest. split; [reflexivity|].
  cbn [decideMappingResult selected_sku]. rewrite Hr.
  split; [reflexivity|]. split.
  - destruct (proj1 (Hin top) (or_introl eq_refl)) as [s [Hs' [_ ->]]].
    exact Hs'.
  - unfold needsReview in Hr. apply orb_false_iff in Hr as [Ht Hm].
    apply ltb_false in Ht. split; [exact Ht|].
    destruct rest as [|second rest']; [constructor|].
    cbn [head] in Hm. apply ltb_false in Hm.
    apply StronglySorted_inv in Hs as [Hs _].
    apply StronglySorted_inv in Hs as [_ Hsecond].
    constructor; [lra|].
    eapply Forall_impl; [exact Hsecond|].
    unfold desc. intros c Hc. lra.
Qed.

Lemma X13_auto_mapped_is_clear_winner_witness :
  exists (top : SKUCandidate) (rest : list SKUCandidate),
    findCandidates (default_engine seed_aliases)
      (normalizeLineItem
         (line_of "corrugated flexible pipe 25mm"
            (Normalized.mk (Some 25) (Some "PP"%string) None None)))
      [sku_cfp_pp] = top :: rest
    /\ SKU.skuCode (sku top) = "NFC25"%string.
Proof.
  destruct (X13_auto_mapped_is_clear_winner (default_engine seed_aliases)
              [sku_cfp_pp]
              (line_of "corrugated flexible pipe 25mm"
                 (Normalized.mk (Some 25) (Some "PP"%string) None None)))
    as (top & rest & E & _ & Hin & _).
  - cbn. lra.
  - vm_compute. reflexivity.
  - exists top, rest. split; [exact E|].
    destruct Hin as [<- | []]. reflexivity.
Defined.

(** X14. A line is mapped to [failed] exactly when no SKU of the catalog
    both passes the hard constraints and scores above 0.1. *)
Theorem X14_failed_iff_nothing_admitted :
  forall (this : Engine) (skuCatalog : list SKU.t) (line : ParsedLineItem.t),
    let nline := normalizeLineItem line in
    let fam := getProductFamily (ParsedLineItem.input_text nline) in
    status (snd (mapLineItem this skuCatalog line)) = failed
    <-> List.Forall (fun sku => admitted this nline fam sku = false) skuCatalog.
Proof.
  intros this skuCatalog line nline fam. cbn [mapLineItem snd]. fold nline.
  pose proof (findCandidates_In this nline skuCatalog) as Hin. fold fam in Hin.
  destruct (findCandidates this nline skuCatalog) as [|top rest].
  - split; [intros _ | reflexivity].
    apply List.Forall_forall. intros sku Hsku.
    destruct (admitted this nline fam sku) eqn:E; [|reflexivity].
    destruct (proj2 (Hin (scoreSKUMatch this nline sku))).
    now exists sku.
  - split.
    + cbn [decideMappingResult status].
      destruct (needsReview this top (head rest)); discriminate.
    + intros Hall. rewrite List.Forall_forall in Hall.
      destruct (proj1 (Hin top) (or_introl eq_refl)) as [s [Hs [Hadm _]]].
      rewrite (Hall s Hs) in Hadm. discriminate.
Qed.

(** X15. Every candidate [findCandidates] returns satisfies the three hard
    constraints in full: its family is the family inferred from the
    request, unless that is unknown; when both sizes are given and non-zero
    they differ by at most the tolerance of the SKU, or the configured one
    when the SKU has none; and when both materials are given they are
    compatible. *)
Theorem X15_candidates_meet_constraints :
  forall (this : Engine) (line : ParsedLineItem.t) (skuCatalog : list SKU.t)
         (c : SKUCandidate),
    In c (findCandidates this line skuCatalog) ->
    let fam := getProductFamily (ParsedLineItem.input_text line) in
    In (sku c) skuCatalog
    /\ (fam <> "Unknown"%string -> SKU.productFamily (sku c) = fam)
    /\ (forall inputSize skuSize : Q,
          ParsedLineItem.size_mm line = Some inputSize ->
          SKU.sizeOdMm (sku c) = Some skuSize ->
          ~ inputSize == 0 -> ~ skuSize == 0 ->
          Qabs (inputSize - skuSize)
          <= num_or (SKU.toleranceMm (sku c))
               (size_tolerance_mm (config this)))
    /\ (forall m : string,
          ParsedLineItem.material line = Some m ->
          Js.truthy_string m = true ->
          Js.truthy_string (SKU.material (sku c)) = true ->
          compatible_with Js.toUpperCase m (sku c)).
Proof.
  intros this line skuCatalog c Hin fam.
  apply findCandidates_In in Hin as [s [Hs [Hadm ->]]]. fold fam in Hadm.
  cbn [scoreSKUMatch sku].
  unfold admitted in Hadm. apply andb_true_iff in Hadm as [Hp _].
  apply passes_true in Hp as (Hfam & Hsize & Hmat).
  split; [exact Hs|]. split; [|split].
  - intros Hne. unfold family_ok in Hfam.
    destruct (String.eqb_spec fam "Unknown"); [contradiction|].
    destruct (String.eqb_spec (SKU.productFamily s) fam);
      [assumption | discriminate].
  - intros inputSize skuSize Hl Hk Hi Hz. unfold size_ok in Hsize.
    rewrite Hl, Hk in Hsize. unfold Js.truthy_q in Hsize.
    destruct (Qeq_bool inputSize 0) eqn:Ei;
      [apply Qeq_bool_iff in Ei; contradiction|].
    destruct (Qeq_bool skuSize 0) eqn:Ek;
      [apply Qeq_bool_iff in Ek; contradiction|].
    cbn [negb andb] in Hsize. now apply negb_true_iff, gtb_false in Hsize.
  - intros m Hm Tm Ts. unfold material_ok in Hmat.
    rewrite Hm, Tm, Ts in Hmat. now apply isMaterialCompatible_spec.
Qed.

Lemma X15_candidates_meet_constraints_witness :
  SKU.productFamily sku_cfp_pp = CFP.
Proof.
  destruct (X15_candidates_meet_constraints (default_engine seed_aliases)
              line_25mm_pp [sku_cfp_pp]
              (scoreSKUMatch (default_engine seed_aliases) line_25mm_pp
                 sku_cfp_pp)) as (_ & H & _).
  - vm_compute. now left.
  - apply H. discriminate.
Defined.

(** ** Callers *)

Lemma skuMap_fold_some (skuCatalog : list SKU.t) :
  forall (m : gmap string SKU.t) (code : string) (s : SKU.t),
    fold_left (fun m sku => <[ SKU.skuCode sku := sku ]> m) skuCatalog m
      !! code = Some s ->
    m !! code = Some s \/ (In s skuCatalog /\ SKU.skuCode s = code).
Proof.
  induction skuCatalog as [|x l IH]; intros m code s H; [now left|].
  cbn [fold_left] in H. apply IH in H as [H | [H1 H2]].
  - apply lookup_insert_Some in H as [[<- <-] | [_ H]];
      [right; split; [now left | reflexivity] | now left].
  - right. split; [now right | exact H2].
Qed.

Lemma skuMap_fold_found (skuCatalog : list SKU.t) :
  forall (m : gmap string SKU.t) (code : string),
    is_Some (m !! code)
    \/ (exists sku, In sku skuCatalog /\ SKU.skuCode sku = code) ->
    is_Some
      (fold_left (fun m sku => <[ SKU.skuCode sku := sku ]> m) skuCatalog m
         !! code).
Proof.
  induction skuCatalog as [|x l IH]; intros m code H.
  - destruct H as [H | [sku [[] _]]]. exact H.
  - cbn [fold_left]. apply IH.
    destruct (String.eqb_spec (SKU.skuCode x) code) as [E | N].
    + left. rewrite <- E, lookup_insert_eq. now exists x.
    + destruct H as [H | [sku [[<- | Hin] E]]].
      * left. now rewrite lookup_insert_ne.
      * contradiction.
      * right. now exists sku.
Qed.

(** X16. Quote creation prices a mapped line with the top candidate
    whatever the status: the code it selects is the code of the head of the
    candidate list for an auto-mapped line and for a line that needs review
    alike, and there is none for a failed line.  When the SKU codes of the
    catalog are non-empty, every line that did not fail is quoted with a
    catalog SKU bearing that code. *)
Theorem X16_quote_uses_top_candidate :
  (forall (this : Engine) (top : SKUCandidate) (rest : list SKUCandidate)
          (line : ParsedLineItem.t),
      selectedSkuCode (decideMappingResult this (top :: rest) line)
      = Some (SKU.skuCode (sku top)))
  /\ (forall (this : Engine) (line : ParsedLineItem.t) (skuCatalog : list SKU.t),
        quotedSku skuCatalog (decideMappingResult this [] line) = None)
  /\ (forall (this : Engine) (skuCatalog : list SKU.t)
             (line : ParsedLineItem.t),
        List.Forall (fun sku => Js.truthy_string (SKU.skuCode sku) = true)
                    skuCatalog ->
        let r := snd (mapLineItem this skuCatalog line) in
        status r <> failed ->
        exists s : SKU.t,
          quotedSku skuCatalog r = Some s
          /\ In s skuCatalog
          /\ selectedSkuCode r = Some (SKU.skuCode s)).
Proof.
  split; [|split].
  - intros this top rest line. unfold selectedSkuCode, is_status.
    cbn [decideMappingResult status selected_sku candidates].
    destruct (needsReview this top (head rest)); cbn [andb].
    + reflexivity.
    + cbn [Js.truthy_str]. destruct (Js.truthy_string _); reflexivity.
  - reflexivity.
  - intros this skuCatalog line Hcodes r Hnf. subst r.
    cbn [mapLineItem snd] in *.
    set (nline := normalizeLineItem line) in *.
    pose proof (findCandidates_In this nline skuCatalog) as Hin.
    destruct (findCandidates this nline skuCatalog) as [|top rest];
      [contradiction Hnf; reflexivity|].
    destruct (proj1 (Hin top) (or_introl eq_refl)) as [s0 [Hs0 [_ Etop]]].
    assert (Ecode : SKU.skuCode (sku top) = SKU.skuCode s0)
      by (rewrite Etop; reflexivity).
    assert (Hsel : selectedSkuCode (decideMappingResult this (top :: rest) nline)
                   = Some (SKU.skuCode (sku top))).
    { unfold selectedSkuCode, is_status.
      cbn [decideMappingResult status selected_sku candidates].
      destruct (needsReview this top (head rest)); cbn [andb];
        [reflexivity|].
      cbn [Js.truthy_str]. destruct (Js.truthy_string _); reflexivity. }
    unfold quotedSku. rewrite Hsel, Ecode.
    rewrite List.Forall_forall in Hcodes. rewrite (Hcodes s0 Hs0).
    destruct (skuMap_fold_found skuCatalog ∅ (SKU.skuCode s0)) as [s Hs];
      [right; now exists s0|].
    fold (skuMap skuCatalog) in Hs. exists s. split; [exact Hs|].
    apply skuMap_fold_some in Hs as [Hs | [Hs1 Hs2]];
      [rewrite lookup_empty in Hs; discriminate|].
    split; [exact Hs1 | now rewrite Hs2].
Qed.

Lemma X16_quote_uses_top_candidate_witness :
  exists s : SKU.t,
    quotedSku [sku_cfp_26; sku_cfp_pp]
      (snd (mapLineItem (default_engine seed_aliases)
              [sku_cfp_26; sku_cfp_pp] line_25mm_pp)) = Some s
    /\ SKU.skuCode s = "NFC25"%string.
Proof.
  destruct (proj2 (proj2 X16_quote_uses_top_candidate)
              (default_engine seed_aliases) [sku_cfp_26; sku_cfp_pp]
              line_25mm_pp) as (s & Hq & _ & Hsel).
  - repeat constructor.
  - vm_compute. discriminate.
  - exists s. split; [exact Hq|].
    vm_compute in Hsel. injection Hsel as E. exact (eq_sym E).
Defined.

Lemma count_status_cons (s : Status) (l : ParsedLineItem.t)
  (r : MappingResult) (rest : list (ParsedLineItem.t * MappingResult)) :
  count_status s ((l, r) :: rest)
  = ((if is_status s r then 1 else 0) + count_status s rest)%nat.
Proof.
  unfold count_status. cbn [List.filter snd].
  destruct (is_status s r); reflexivity.
Qed.

(** X17. In the summary of the mapping endpoint every line is counted
    under exactly one status: the three counts add up to the number of
    lines. *)
Theorem X17_summary_adds_up :
  forall mappedLines : list (ParsedLineItem.t * MappingResult),
    let s := mappingSummary mappedLines in
    total_lines s
    = (summary_auto_mapped s + summary_needs_review s + summary_failed s)%nat.
Proof.
  intros mappedLines. cbn [mappingSummary total_lines summary_auto_mapped
    summary_needs_review summary_failed].
  induction mappedLines as [|[l r] rest IH]; [reflexivity|].
  rewrite !count_status_cons. cbn [List.length]. rewrite IH.
  unfold is_status. destruct (status r); lia.
Qed.

Lemma mappedSku_top (this : Engine) (top : SKUCandidate)
  (rest : list SKUCandidate) (line : ParsedLineItem.t) :
  mappedSku (decideMappingResult this (top :: rest) line)
  = SKU.skuCode (sku top).
Proof.
  unfold mappedSku, is_status.
  cbn [decideMappingResult status selected_sku candidates].
  destruct (needsReview this top (head rest)); cbn [andb]; [reflexivity|].
  cbn [Js.truthy_str]. destruct (Js.truthy_string _); reflexivity.
Qed.

Lemma is_mapped_not_failed (this : Engine) (skuCatalog : list SKU.t)
  (line : ParsedLineItem.t) :
  List.Forall proper_code skuCatalog ->
  let r := snd (mapLineItem this skuCatalog line) in
  is_mapped (Some (mappedSku r)) = negb (is_status failed r).
Proof.
  intros Hcodes r. subst r. cbn [mapLineItem snd].
  set (nline := normalizeLineItem line).
  pose proof (findCandidates_In this nline skuCatalog) as Hin.
  destruct (findCandidates this nline skuCatalog) as [|top rest];
    [reflexivity|].
  rewrite mappedSku_top.
  destruct (proj1 (Hin top) (or_introl eq_refl)) as [s0 [Hs0 [_ ->]]].
  cbn [scoreSKUMatch sku].
  rewrite List.Forall_forall in Hcodes. destruct (Hcodes s0 Hs0) as [Ht Hn].
  unfold is_mapped. cbn [Js.truthy_str eq_opt]. rewrite Ht.
  destruct (String.eqb_spec "Not mapped" (SKU.skuCode s0)) as [E | _];
    [now contradiction Hn|].
  unfold is_status. cbn [decideMappingResult status].
  destruct (needsReview _ _ _); reflexivity.
Qed.

Lemma filter_length_le_all (A : Type) (p : A -> bool) (l : list A) :
  (List.length (List.filter p l) <= List.length l)%nat.
Proof.
  induction l as [|x l IH]; cbn [List.filter]; [lia|].
  destruct (p x); cbn [List.length]; lia.
Qed.

(** X18. The mapping success rate of a quote lies in [0,1] and is 1 when
    the quote has no original items.  For the items the quote endpoint
    derives from a run of the mapping engine over a catalog with proper SKU
    codes, it is the share of the lines that did not fail. *)
Theorem X18_mapping_success_rate :
  (forall items : option (list (option string)),
      unit_interval (calculateMappingSuccessRate items))
  /\ calculateMappingSuccessRate None = 1
  /\ calculateMappingSuccessRate (Some []) = 1
  /\ (forall (this : Engine) (skuCatalog : list SKU.t)
             (lines : list ParsedLineItem.t),
        List.Forall proper_code skuCatalog ->
        lines <> [] ->
        let mappedLines := mapLineItems this lines skuCatalog in
        calculateMappingSuccessRate (Some (originalItems mappedLines))
        = of_nat (List.length lines - count_status failed mappedLines)
          / of_nat (List.length lines)).
Proof.
  split; [|split; [reflexivity | split; [reflexivity|]]].
  - intros [items|]; unfold unit_interval, calculateMappingSuccessRate;
      [|lra].
    destruct (Nat.eqb_spec (List.length items) 0) as [_ | Hne]; [lra|].
    apply ratio_unit; [apply filter_length_le_all | lia].
  - intros this skuCatalog lines Hcodes Hne mappedLines.
    unfold calculateMappingSuccessRate.
    assert (Hlen : List.length (originalItems mappedLines) = List.length lines)
      by (unfold originalItems, mappedLines, mapLineItems;
          now rewrite !length_map).
    rewrite Hlen.
    destruct (Nat.eqb_spec (List.length lines) 0) as [Hz | _];
      [destruct lines; [contradiction | discriminate]|].
    do 2 f_equal.
    subst mappedLines. unfold originalItems, mapLineItems. clear Hne Hlen.
    induction lines as [|line lines IH]; [reflexivity|].
    cbn [map List.filter List.length].
    destruct (mapLineItem this skuCatalog line) as [nl r] eqn:E.
    rewrite count_status_cons.
    pose proof (is_mapped_not_failed this skuCatalog line Hcodes) as Hm.
    cbv zeta in Hm. rewrite E in Hm. cbn [snd] in Hm |- *. rewrite Hm.
    pose proof (filter_length_le_all _
                  (fun l => is_status failed (snd l))
                  (map (mapLineItem this skuCatalog) lines)) as Hle.
    rewrite length_map in Hle. fold (count_status failed
      (map (mapLineItem this skuCatalog) lines)) in Hle.
    destruct (is_status failed r); cbn [negb List.length]; rewrite IH; lia.
Qed.

Lemma X18_mapping_success_rate_witness :
  calculateMappingSuccessRate
    (Some (originalItems
             (mapLineItems (default_engine seed_aliases)
                [line_25mm_pp; line_x] [sku_cfp_pp])))
  = of_nat 1 / of_nat 2.
Proof.
  apply (proj2 (proj2 (proj2 X18_mapping_success_rate))
           (default_engine seed_aliases) [sku_cfp_pp]
           [line_25mm_pp; line_x]).
  - repeat constructor. discriminate.
  - discriminate.
Defined.

Lemma sum_nonneg (l : list Q) :
  List.Forall (fun q => 0 <= q) l ->
  forall acc : Q, 0 <= acc ->
    0 <= fold_left (fun sum item => sum + item) l acc.
Proof.
  induction 1 as [|q l Hq Hl IH]; intros acc Hacc; cbn [fold_left];
    [exact Hacc|].
  apply IH. lra.
Qed.

(** X19. In the totals of a quote the freight is never below the configured
    minimum and does not depend on whether freight is taxable.  With
    nonnegative line totals, a header discount between 0 and 100 percent
    and a nonnegative minimum freight, the discount lies between 0 and the
    subtotal, the tax is not negative, and the grand total is at least the
    minimum freight. *)
Theorem X19_quote_totals :
  forall (pricingConfig : PricingConfig) (line_totals : list Q)
         (header_discount_pct : Q) (freight_taxable : bool),
    List.Forall (fun q => 0 <= q) line_totals ->
    0 <= header_discount_pct <= 100 ->
    0 <= freight_min_amount pricingConfig ->
    let t := quoteTotals pricingConfig line_totals header_discount_pct
               freight_taxable in
    freight_min_amount pricingConfig <= freight t
    /\ freight t
       = freight (quoteTotals pricingConfig line_totals header_discount_pct
                    (negb freight_taxable))
    /\ 0 <= discount t <= subtotal t
    /\ 0 <= tax t
    /\ freight_min_amount pricingConfig <= grand_total t.
Proof.
  intros pricingConfig line_totals pct taxable Hl Hp Hmin t. subst t.
  unfold quoteTotals.
  cbn [subtotal discount freight tax grand_total].
  set (sub := fold_left _ line_totals 0).
  assert (Hsub : 0 <= sub) by (apply sum_nonneg; [exact Hl | lra]).
  set (disc := sub * (pct / 100)).
  assert (Hdisc : 0 <= disc <= sub).
  { subst disc. assert (0 <= pct / 100 <= 1).
    { split; [apply Qle_shift_div_l | apply Qle_shift_div_r]; lra. }
    nra. }
  set (fr := Qmax ((sub - disc) * default_freight_rate pricingConfig)
                  (freight_min_amount pricingConfig)).
  assert (Hfr : freight_min_amount pricingConfig <= fr)
    by apply Q.le_max_r.
  assert (Hsame : (if taxable then fr else fr) = fr)
    by (destruct taxable; reflexivity).
  assert (Hsame' : (if negb taxable then fr else fr) = fr)
    by (destruct taxable; reflexivity).
  rewrite Hsame, Hsame'.
  repeat split; try lra; destruct taxable; nra.
Qed.

Lemma X19_quote_totals_witness :
  50 <= grand_total
          (quoteTotals {| default_freight_rate := 5 # 100;
                          freight_min_amount := 50 |}
             [100; 250] 10 true).
Proof.
  apply (X19_quote_totals {| default_freight_rate := 5 # 100;
                             freight_min_amount := 50 |} [100; 250] 10 true).
  - repeat constructor; discriminate.
  - split; discriminate.
  - discriminate.
Defined.

(** X20. Normalizing a line is idempotent: a line that has been normalized
    is left unchanged by a second normalization. *)
Theorem X20_normalizeLineItem_idempotent :
  forall line : ParsedLineItem.t,
    normalizeLineItem (normalizeLineItem line) = normalizeLineItem line.
Proof.
  intros [text qty uom [d st mt ct gt] n]. unfold normalizeLineItem.
  cbn [ParsedLineItem.raw_tokens ParsedLineItem.normalized
       ParsedLineItem.input_text ParsedLineItem.qty ParsedLineItem.uom
       RawTokens.size_token RawTokens.material_token RawTokens.color_token
       RawTokens.gauge_token].
  f_equal. unfold when_token.
  destruct st as [st|], mt as [mt|], ct as [ct|], gt as [gt|];
    repeat match goal with
           | |- context [Js.truthy_string ?t] =>
               destruct (Js.truthy_string t)
           end;
    destruct n as [[s m c g]|]; reflexivity.
Qed.

(** X21. Under the default configuration (weights 0.6, 0.3, 0.1 and 0.1,
    threshold 0.85) a line is auto-mapped only to a SKU whose description
    is close to the request text: the fuzzy sub-score of the selected
    candidate is at least 35/60, whatever the sizes, materials and aliases
    are. *)
Theorem X21_default_auto_map_needs_similar_text :
  forall (al : gmap string (list AliasEntry)) (skuCatalog : list SKU.t)
         (line : ParsedLineItem.t),
    let this := default_engine al in
    let r := snd (mapLineItem this skuCatalog line) in
    status r = auto_mapped ->
    35 # 60 <= Explanation.fuzzy_score (Explanation.scores (explanation r))
    /\ exists sku : SKU.t,
         In sku skuCatalog
         /\ selected_sku r = Some (SKU.skuCode sku)
         /\ 35 # 60 <= calculateFuzzyScore (ParsedLineItem.input_text line) sku.
Proof.
  intros al skuCatalog line this r. subst r. cbn [mapLineItem snd].
  set (nline := normalizeLineItem line).
  pose proof (findCandidates_In this nline skuCatalog) as Hin.
  destruct (findCandidates this nline skuCatalog) as [|top rest];
    [discriminate|].
  intros Hauto. pose proof Hauto as Hr. apply status_auto_iff in Hr.
  destruct (proj1 (Hin top) (or_introl eq_refl)) as [s [Hs [_ Etop]]].
  unfold needsReview in Hr. apply orb_false_iff in Hr as [Ht _].
  apply ltb_false in Ht. rewrite Etop in Ht.
  cbn [scoreSKUMatch score] in Ht.
  change (config this) with default_config in Ht.
  cbn [default_config auto_map_threshold fuzzy_weight size_weight
       material_weight alias_weight] in Ht.
  pose proof (calculateSizeScore_unit this nline s) as [_ S1].
  pose proof (calculateMaterialScore_unit nline s) as [_ M1].
  pose proof (calculateAliasScore_unit this
                (ParsedLineItem.input_text nline) s) as [_ A1].
  assert (Hf : 35 # 60
               <= calculateFuzzyScore (ParsedLineItem.input_text nline) s).
  { match type of Ht with
    | _ <= Qmin ?x ?y => pose proof (Q.le_min_l x y)
    end. lra. }
  split.
  - cbn [decideMappingResult explanation createExplanation head
         Explanation.scores Explanation.fuzzy_score].
    rewrite Etop. exact Hf.
  - exists s. split; [exact Hs|]. split; [|exact Hf].
    cbn [decideMappingResult selected_sku].
    assert (needsReview this top (head rest) = false) as ->
        by (now apply status_auto_iff in Hauto).
    now rewrite Etop.
Qed.

Lemma X21_default_auto_map_needs_similar_text_witness :
  35 # 60
  <= Explanation.fuzzy_score
       (Explanation.scores
          (explanation
             (snd (mapLineItem (default_engine seed_aliases) [sku_cfp_pp]
                     (line_of "corrugated flexible pipe 25mm"
                        (Normalized.mk (Some 25) (Some "PP"%string) None
                           None)))))).
Proof.
  apply (X21_default_auto_map_needs_similar_text seed_aliases [sku_cfp_pp]
           (line_of "corrugated flexible pipe 25mm"
              (Normalized.mk (Some 25) (Some "PP"%string) None None))).
  vm_compute. reflexivity.
Defined.

(** ** The alias file *)

Lemma split_on_from_single (sep : ascii) (s : string) :
  forall cur : string,
    has_char sep s = false ->
    split_on_from sep cur s = [(cur ++ s)%string].
Proof.
  induction s as [|c s IH]; intros cur H.
  - now rewrite append_empty_r.
  - cbn [has_char split_on_from] in *.
    destruct (Ascii.eqb c sep); [discriminate|]. cbn [orb] in H.
    rewrite (IH _ H). f_equal.
    clear. induction cur as [|x cur IH]; [reflexivity|].
    now rewrite !append_cons, IH.
Qed.

Lemma split_on_from_nonempty (sep : ascii) (s : string) :
  forall cur : string, split_on_from sep cur s <> [].
Proof.
  induction s as [|c s IH]; intros cur; cbn [split_on_from]; [discriminate|].
  destruct (Ascii.eqb c sep); [discriminate | apply IH].
Qed.

Lemma split_on_from_many (sep : ascii) (s : string) :
  forall cur : string,
    has_char sep s = true ->
    (2 <= List.length (split_on_from sep cur s))%nat.
Proof.
  induction s as [|c s IH]; intros cur H; [discriminate|].
  cbn [has_char split_on_from] in *.
  destruct (Ascii.eqb c sep).
  - pose proof (split_on_from_nonempty sep s EmptyString).
    destruct (split_on_from sep EmptyString s); [contradiction|].
    cbn [List.length]. lia.
  - now apply IH.
Qed.

Lemma parse_alias_row_fields (ai si bi : nat) (raw : string) :
  List.Forall
    (fun row =>
       Js.truthy_string (SkuAliasRow.alias row) = true
       /\ Js.truthy_string (SkuAliasRow.sku_code row) = true
       /\ Js.truthy_string (SkuAliasRow.score_boost row) = true)
    (parse_alias_row ai si bi raw).
Proof.
  unfold parse_alias_row.
  repeat match goal with
         | |- context [if ?b then _ else _] => destruct b eqn:?
         | |- context [match ?o with Some _ => _ | None => _ end] =>
             destruct o
         end; try constructor; [|constructor].
  cbn [SkuAliasRow.alias SkuAliasRow.sku_code SkuAliasRow.score_boost].
  repeat match goal with
         | H : (_ && _)%bool = true |- _ => apply andb_true_iff in H as [? ?]
         end. tauto.
Qed.

(** X22. Parsing the alias file fails with the message about the missing
    data row exactly when the trimmed content has no line break, an empty
    or header-only file for instance.  When it succeeds, every row it
    returns has a non-empty alias, SKU code and score boost. *)
Theorem X22_parseSkuAliasesCsv :
  forall csvContent : string,
    (parseSkuAliasesCsv csvContent = Err too_few_lines
     <-> has_char newline (Js.trim csvContent) = false)
    /\ (forall rows : list SkuAliasRow.t,
          parseSkuAliasesCsv csvContent = Ok rows ->
          List.Forall
            (fun row =>
               Js.truthy_string (SkuAliasRow.alias row) = true
               /\ Js.truthy_string (SkuAliasRow.sku_code row) = true
               /\ Js.truthy_string (SkuAliasRow.score_boost row) = true)
            rows).
Proof.
  intros csvContent. unfold parseSkuAliasesCsv, split_on.
  set (content := Js.trim csvContent).
  destruct (has_char newline content) eqn:Hnl.
  - pose proof (split_on_from_many newline content EmptyString Hnl) as Hlen.
    destruct (Nat.ltb_spec (List.length
                (split_on_from newline EmptyString content)) 2) as [L | _];
      [lia|].
    set (lines := split_on_from newline EmptyString content).
    set (headers := map _ (split_on_from comma EmptyString _)).
    destruct (indexOf headers "alias") as [ai|],
      (indexOf headers "sku_code") as [si|],
      (indexOf headers "score_boost") as [bi|];
      (split; [split; discriminate|]); intros rows H; try discriminate.
    injection H as <-.
    induction (tl lines) as [|raw l IH]; [constructor|].
    cbn [flat_map]. apply Forall_app. split; [|exact IH].
    apply parse_alias_row_fields.
  - rewrite (split_on_from_single _ _ _ Hnl). cbn [List.length Nat.ltb Nat.leb].
    split; [split; reflexivity | discriminate].
Qed.

Lemma X22_parseSkuAliasesCsv_witness :
  parseSkuAliasesCsv "alias,sku_code,score_boost" = Err too_few_lines.
Proof.
  apply (proj1 (X22_parseSkuAliasesCsv "alias,sku_code,score_boost")).
  reflexivity.
Defined.

(** X23. A service whose alias file cannot be read, or has no data line,
    runs on the built-in fallback aliases.  A file that parses, even to no
    row at all, is used instead: the table then holds, for every SKU code,
    the rows of the file that name it. *)
Theorem X23_alias_loading_falls_back :
  forall parseFloat : string -> option Q,
    (forall message : string,
        loadAliases parseFloat (Err message)
        = initializeAliases parseFloat None)
    /\ (forall csvContent : string,
          has_char newline (Js.trim csvContent) = false ->
          loadAliases parseFloat (Ok csvContent)
          = initializeAliases parseFloat None)
    /\ (forall (csvContent : string) (rows : list SkuAliasRow.t)
               (code : string),
          parseSkuAliasesCsv csvContent = Ok rows ->
          loadAliases parseFloat (Ok csvContent) !! code
          = some_if_nonempty (rows_of parseFloat code rows)).
Proof.
  intros parseFloat. split; [reflexivity | split].
  - intros csvContent Hnl. unfold loadAliases, getSkuAliases,
      parseSkuAliasesCsv, split_on.
    rewrite (split_on_from_single _ _ _ Hnl). reflexivity.
  - intros csvContent rows code H. unfold loadAliases, getSkuAliases.
    rewrite H. unfold initializeAliases.
    now rewrite load_lookup, lookup_empty.
Qed.

Lemma X23_alias_loading_falls_back_witness :
  loadAliases (fun _ => None) (Ok "alias,sku_code,score_boost")
  = initializeAliases (fun _ => None) None.
Proof.
  apply (proj1 (proj2 (X23_alias_loading_falls_back (fun _ => None)))).
  reflexivity.
Defined.

(** ** The price master line parser *)

Lemma append_assoc_char (cur : string) (c : ascii) (s : string) :
  ((cur ++ String c EmptyString) ++ s)%string = (cur ++ String c s)%string.
Proof.
  induction cur as [|x cur IH]; [reflexivity|].
  now rewrite !append_cons, IH.
Qed.

Lemma parseCSVLine_from_plain (line : string) :
  forall cur : string,
    has_char quote_char line = false ->
    parseCSVLine_from cur false line
    = map Js.trim (split_on_from comma cur line).
Proof.
  induction line as [|c line IH]; intros cur H; [reflexivity|].
  cbn [has_char parseCSVLine_from split_on_from] in *.
  destruct (Ascii.eqb c quote_char); [discriminate|]. cbn [orb] in H.
  destruct (Ascii.eqb c comma); cbn [andb negb map]; now rewrite IH.
Qed.

Lemma parseCSVLine_from_quoted (s : string) :
  forall cur : string,
    has_char quote_char s = false ->
    parseCSVLine_from cur true (s ++ String quote_char EmptyString)
    = [Js.trim (cur ++ s)].
Proof.
  induction s as [|c s IH]; intros cur H.
  - rewrite append_empty_l, append_empty_r. reflexivity.
  - rewrite append_cons. cbn [has_char parseCSVLine_from] in *.
    destruct (Ascii.eqb c quote_char); [discriminate|]. cbn [orb] in H.
    rewrite andb_false_r, (IH _ H). now rewrite append_assoc_char.
Qed.

(** X24. On a line without double quotes [parseCSVLine] is the plain split
    at commas with every field trimmed, so it never returns an empty list.
    A field wrapped in double quotes keeps its commas: a line that is one
    quoted text gives that text as its only field. *)
Theorem X24_parseCSVLine :
  forall line : string,
    has_char quote_char line = false ->
    parseCSVLine line = map Js.trim (split_on comma line)
    /\ parseCSVLine line <> []
    /\ parseCSVLine (String quote_char line ++ String quote_char EmptyString)
       = [Js.trim line].
Proof.
  intros line H. unfold parseCSVLine, split_on.
  rewrite (parseCSVLine_from_plain _ _ H). split; [reflexivity|]. split.
  - pose proof (split_on_from_nonempty comma line EmptyString) as Hne.
    destruct (split_on_from comma EmptyString line); [contradiction|].
    discriminate.
  - rewrite append_cons. cbn [parseCSVLine_from].
    rewrite Ascii.eqb_refl. cbn [negb].
    now rewrite (parseCSVLine_from_quoted _ _ H).
Qed.

Lemma X24_parseCSVLine_witness :
  parseCSVLine "NFC25, Corrugated Flexible Pipe ,PP"
  = ["NFC25"; "Corrugated Flexible Pipe"; "PP"]%string.
Proof.
  apply (proj1 (X24_parseCSVLine "NFC25, Corrugated Flexible Pipe ,PP"
                  eq_refl)).
Defined.

(** ** The catalog and missing fields *)

(** X25. Whether a SKU becomes a candidate, and with which score, does not
    depend on the rest of the catalog: the candidates of two catalogs put
    together are the candidates of the one and those of the other. *)
Theorem X25_candidates_of_joined_catalogs :
  forall (this : Engine) (line : ParsedLineItem.t)
         (catalog1 catalog2 : list SKU.t) (c : SKUCandidate),
    In c (findCandidates this line (catalog1 ++ catalog2))
    <-> In c (findCandidates this line catalog1)
        \/ In c (findCandidates this line catalog2).
Proof.
  intros this line catalog1 catalog2 c. rewrite !findCandidates_In. split.
  - intros [sku [Hin H]]. apply in_app_or in Hin as [Hin | Hin];
      [left | right]; now exists sku.
  - intros [[sku [Hin H]] | [sku [Hin H]]]; exists sku;
      (split; [apply in_or_app; tauto | exact H]).
Qed.

(** X26. A request that gives no size and no material, and whose text hints
    at no product family, meets no hard constraint: its candidates are
    exactly the scored SKUs of the catalog whose score is above 0.1. *)
Theorem X26_unconstrained_line :
  forall (this : Engine) (line : ParsedLineItem.t) (skuCatalog : list SKU.t),
    getProductFamily (ParsedLineItem.input_text line) = "Unknown"%string ->
    ParsedLineItem.size_mm line = None ->
    ParsedLineItem.material line = None ->
    forall c : SKUCandidate,
      In c (findCandidates this line skuCatalog)
      <-> exists sku : SKU.t,
            In sku skuCatalog /\ c = scoreSKUMatch this line sku
            /\ 1 # 10 < score c.
Proof.
  intros this line skuCatalog Hfam Hsize Hmat c.
  rewrite findCandidates_In, Hfam.
  assert (Hp : forall sku, passesHardConstraints this line sku "Unknown" = true).
  { intros sku. apply passes_true.
    unfold family_ok, size_ok, material_ok. now rewrite Hsize, Hmat. }
  split; intros [sku [Hin H]]; exists sku; (split; [exact Hin|]).
  - destruct H as [Hadm ->]. split; [reflexivity|].
    unfold admitted in Hadm. apply andb_true_iff in Hadm as [_ Hs].
    now apply gtb_spec.
  - destruct H as [-> Hs]. split; [|reflexivity].
    unfold admitted. rewrite Hp. cbn [andb]. now apply gtb_spec.
Qed.

Lemma X26_unconstrained_line_witness :
  ~ In (scoreSKUMatch (default_engine ∅) line_x sku_unrelated)
       (findCandidates (default_engine ∅) line_x [sku_unrelated]).
Proof.
  intros Hin.
  apply (X26_unconstrained_line (default_engine ∅) line_x [sku_unrelated]
           eq_refl eq_refl eq_refl) in Hin as [sku [_ [_ Hs]]].
  vm_compute in Hs. discriminate Hs.
Defined.

(** X27. A size token that is present decides the normalized size, also
    when no size can be read from it: a size supplied with the line is then
    dropped.  Without a size token the supplied size is kept. *)
Theorem X27_size_token_overrides :
  forall line : ParsedLineItem.t,
    let tok := RawTokens.size_token (ParsedLineItem.raw_tokens line) in
    (forall t : string,
        tok = Some t -> Js.truthy_string t = true ->
        ParsedLineItem.size_mm (normalizeLineItem line) = extractSizeMm t)
    /\ (Js.truthy_str tok = false ->
        ParsedLineItem.size_mm (normalizeLineItem line)
        = ParsedLineItem.size_mm line).
Proof.
  intros [text qty uom [d st mt ct gt] n]. 
  cbn [ParsedLineItem.raw_tokens RawTokens.size_token].
  unfold normalizeLineItem, ParsedLineItem.size_mm.
  cbn [ParsedLineItem.raw_tokens ParsedLineItem.normalized
       RawTokens.size_token RawTokens.material_token RawTokens.color_token
       RawTokens.gauge_token].
  unfold when_token. split.
  - intros t -> Ht. rewrite Ht.
    destruct mt as [mt|], ct as [ct|], gt as [gt|];
      repeat match goal with
             | |- context [Js.truthy_string ?t] =>
                 destruct (Js.truthy_string t)
             end; reflexivity.
  - intros Ht.
    destruct st as [st|]; cbn [Js.truthy_str] in Ht; try rewrite Ht;
      destruct mt as [mt|], ct as [ct|], gt as [gt|];
      repeat match goal with
             | |- context [Js.truthy_string ?t] =>
                 destruct (Js.truthy_string t)
             end;
      destruct n as [[s m c g]|]; reflexivity.
Qed.

Lemma X27_size_token_overrides_witness :
  ParsedLineItem.size_mm
    (normalizeLineItem
       (ParsedLineItem.mk "pipe" 1 "M"
          (RawTokens.mk None (Some "large"%string) None None None)
          (Some (Normalized.mk (Some 25) None None None))))
  = None.
Proof.
  apply (proj1 (X27_size_token_overrides
                  (ParsedLineItem.mk "pipe" 1 "M"
                     (RawTokens.mk None (Some "large"%string) None None None)
                     (Some (Normalized.mk (Some 25) None None None))))
           "large"); reflexivity.
Defined.

(** X28. Zero counts as missing.  A size of 0 on the line or on the SKU
    switches the size constraint off and gives size sub-score 0; a SKU
    tolerance of 0 does not mean an exact fit: the filter then uses the
    configured tolerance. *)
Theorem X28_zero_is_missing :
  forall (this : Engine) (line : ParsedLineItem.t) (sku : SKU.t)
         (inputSize skuSize : Q),
    ParsedLineItem.size_mm line = Some inputSize ->
    SKU.sizeOdMm sku = Some skuSize ->
    (inputSize == 0 \/ skuSize == 0 ->
     size_ok this line sku = true /\ calculateSizeScore this line sku = 0)
    /\ (forall t : Q,
          ~ inputSize == 0 -> ~ skuSize == 0 ->
          SKU.toleranceMm sku = Some t -> t == 0 ->
          (size_ok this line sku = true
           <-> Qabs (inputSize - skuSize) <= size_tolerance_mm (config this))).
Proof.
  intros this line sku inputSize skuSize Hl Hs.
  unfold size_ok, calculateSizeScore. rewrite Hl, Hs. unfold Js.truthy_q.
  split.
  - intros [Z | Z]; apply Qeq_bool_iff in Z; rewrite Z; cbn [negb andb orb];
      [now split|].
    rewrite andb_false_r, orb_true_r. now split.
  - intros t Hi Hk Ht Z.
    destruct (Qeq_bool inputSize 0) eqn:Ei;
      [apply Qeq_bool_iff in Ei; contradiction|].
    destruct (Qeq_bool skuSize 0) eqn:Ek;
      [apply Qeq_bool_iff in Ek; contradiction|].
    cbn [negb andb]. rewrite Ht. unfold num_or, Js.truthy_q.
    apply Qeq_bool_iff in Z. rewrite Z. cbn [negb].
    rewrite negb_true_iff. apply gtb_false.
Qed.

Lemma X28_zero_is_missing_witness :
  size_ok (default_engine ∅)
    (line_of "pipe" (Normalized.mk (Some 0) None None None)) sku_cfp_pp = true
  /\ calculateSizeScore (default_engine ∅)
       (line_of "pipe" (Normalized.mk (Some 0) None None None)) sku_cfp_pp = 0.
Proof.
  apply (proj1 (X28_zero_is_missing (default_engine ∅)
                  (line_of "pipe" (Normalized.mk (Some 0) None None None))
                  sku_cfp_pp 0 25 eq_refl eq_refl)).
  left. reflexivity.
Defined.
